(** * fileview autopilot loop: scoring, task queue and cycle controller

    A shallow embedding of [scripts/autopilot_loop.py].

    Conventions of the embedding.
    - Python [int] is [Z]; a [dict] read by key is a [gmap string _]; a JSON
      object with a fixed set of keys is a record whose optional keys are
      [option] fields ([None] = key absent, so that [d.get(k, dflt)] is
      [default dflt (k d)]).
    - A raised exception is the [Raise] branch of [result]; code that also
      touches the persisted documents runs in the monad [M] over [world].
    - Python floats ([math.log10], [/], [*], [round]) are idealised as real
      numbers: [log10] is the real logarithm and [round] is rounding to the
      nearest integer, ties to even.
    - The clock is read once per cycle: [now] is the POSIX time in seconds
      and [stamp] is its rendering
      [utcnow().replace(microsecond=0).isoformat() + "Z"]. *)

From Stdlib Require Import ZArith String Ascii List Lia Reals Lra.
From stdpp Require Import gmap strings list fin_maps.

Open Scope string_scope.
Open Scope Z_scope.

(** ** Exceptions and results *)

Inductive exn : Type :=
| KeyError (key : string)
| ValueError
| TypeError
| ZeroDivisionError
| SystemExit (code : Z).

Inductive result (A : Type) : Type :=
| Ok (a : A)
| Raise (e : exn).

Arguments Ok {A} a.
Arguments Raise {A} e.

#[global] Instance result_ret : MRet result := λ A a, Ok a.

#[global] Instance result_bind : MBind result :=
  λ A B f r, match r with Ok a => f a | Raise e => Raise e end.

(** [d[k]] on a dict: [KeyError] when the key is absent. *)
Definition getitem {A} (k : string) (o : option A) : result A :=
  match o with Some a => Ok a | None => Raise (KeyError k) end.

(** ** Timestamps

    [datetime.fromisoformat] restricted to the grammar of the metrics
    provider, [YYYY-MM-DD?HH:MM:SS] followed by nothing (a naive datetime) or
    by an offset [+HH:MM] / [-HH:MM]; every other string is a [ValueError].
    The ordinal arithmetic follows CPython's [_ymd2ord]. *)

Record datetime : Type := {
  dt_seconds : Z;          (* wall-clock seconds since 1970-01-01T00:00:00 *)
  dt_utcoffset : option Z  (* seconds east of UTC; [None] for a naive value *)
}.

Definition is_leap (y : Z) : bool :=
  (y mod 4 =? 0) && (negb (y mod 100 =? 0) || (y mod 400 =? 0)).

Definition days_before_year (y : Z) : Z :=
  let y1 := y - 1 in y1 * 365 + y1 / 4 - y1 / 100 + y1 / 400.

Definition days_in_month (y m : Z) : Z :=
  if m =? 2 then (if is_leap y then 29 else 28)
  else if (m =? 4) || (m =? 6) || (m =? 9) || (m =? 11) then 30 else 31.

Definition DAYS_BEFORE_MONTH : list Z :=
  [0; 0; 31; 59; 90; 120; 151; 181; 212; 243; 273; 304; 334].

Definition days_before_month (y m : Z) : Z :=
  nth (Z.to_nat m) DAYS_BEFORE_MONTH 0 + (if (2 <? m) && is_leap y then 1 else 0).

Definition ymd2ord (y m d : Z) : Z :=
  days_before_year y + days_before_month y m + d.

(** [date(1970, 1, 1).toordinal()] *)
Definition EPOCH_ORDINAL : Z := 719163.

Definition digit (c : ascii) : option Z :=
  let n := Z.of_nat (nat_of_ascii c) in
  if (48 <=? n) && (n <=? 57) then Some (n - 48) else None.

(** Reads exactly [n] decimal digits. *)
Fixpoint number (n : nat) (acc : Z) (l : list ascii) : option (Z * list ascii) :=
  match n with
  | O => Some (acc, l)
  | S n' =>
      match l with
      | c :: l' => d ← digit c; number n' (10 * acc + d) l'
      | [] => None
      end
  end.

Definition expect (c : ascii) (l : list ascii) : option (list ascii) :=
  match l with
  | c' :: l' => if Ascii.eqb c c' then Some l' else None
  | [] => None
  end.

Definition skip (l : list ascii) : option (list ascii) :=
  match l with _ :: l' => Some l' | [] => None end.

Definition parse_offset (l : list ascii) : option (option Z) :=
  match l with
  | [] => Some None
  | c :: l' =>
      sign ← (if Ascii.eqb c "+"%char then Some 1
              else if Ascii.eqb c "-"%char then Some (-1) else None);
      '(hh, l1) ← number 2 0 l';
      l2 ← expect ":"%char l1;
      '(mm, l3) ← number 2 0 l2;
      match l3 with
      | [] => if (hh <=? 23) && (mm <=? 59)
              then Some (Some (sign * (hh * 3600 + mm * 60))) else None
      | _ :: _ => None
      end
  end.

Definition parse_datetime (l : list ascii) : option datetime :=
  '(y, l) ← number 4 0 l;
  l ← expect "-"%char l;
  '(m, l) ← number 2 0 l;
  l ← expect "-"%char l;
  '(d, l) ← number 2 0 l;
  l ← skip l;
  '(hh, l) ← number 2 0 l;
  l ← expect ":"%char l;
  '(mi, l) ← number 2 0 l;
  l ← expect ":"%char l;
  '(ss, l) ← number 2 0 l;
  off ← parse_offset l;
  if (1 <=? y) && (1 <=? m) && (m <=? 12) && (1 <=? d) && (d <=? days_in_month y m)
     && (hh <=? 23) && (mi <=? 59) && (ss <=? 59)
  then Some {| dt_seconds := (ymd2ord y m d - EPOCH_ORDINAL) * 86400
                             + hh * 3600 + mi * 60 + ss;
               dt_utcoffset := off |}
  else None.

Definition fromisoformat (s : string) : result datetime :=
  match parse_datetime (list_ascii_of_string s) with
  | Some t => Ok t
  | None => Raise ValueError
  end.

(** [s.replace("Z", "+00:00")] *)
Fixpoint replace_Z (s : string) : string :=
  match s with
  | EmptyString => EmptyString
  | String c r =>
      if Ascii.eqb c "Z"%char then "+00:00" +:+ replace_Z r else String c (replace_Z r)
  end.

(** [(now - pushed).days] for an aware [now] in UTC: subtracting a naive
    datetime is a [TypeError]; [timedelta.days] is the floor of the
    difference in days. *)
Definition days_since (now : Z) (pushed : datetime) : result Z :=
  match dt_utcoffset pushed with
  | None => Raise TypeError
  | Some off => Ok ((now - (dt_seconds pushed - off)) / 86400)
  end.

(** ** Sub-scores *)

(** [math.log10] on an [int]. *)
Definition log10 (n : Z) : result R :=
  if n <=? 0 then Raise ValueError else Ok (ln (IZR n) / ln 10)%R.

(** Float division. *)
Definition truediv (a b : R) : result R :=
  if Req_dec_T b 0 then Raise ZeroDivisionError else Ok (a / b)%R.

(** [round(x)]: nearest integer, ties to the even one. *)
Definition round (x : R) : Z :=
  let f := Int_part x in
  let d := (x - IZR f)%R in
  if Rlt_dec d (1 / 2) then f
  else if Rlt_dec (1 / 2) d then f + 1
  else if Z.even f then f else f + 1.

Definition ecosystem_score (stars max_stars : Z) : result Z :=
  if max_stars <=? 0 then Ok 1
  else
    a ← log10 (stars + 1);
    b ← log10 (max_stars + 1);
    ratio ← truediv a b;
    Ok (Z.max 1 (Z.min 15 (round (ratio * 15)))).

Definition momentum_score (now : Z) (pushed_at : option string) : result Z :=
  match pushed_at with
  | None => Ok 1
  | Some "" => Ok 1
  | Some s =>
      pushed ← fromisoformat (replace_Z s);
      d ← days_since now pushed;
      let days := Z.max 0 d in
      if days <=? 1 then Ok 10
      else if days <=? 3 then Ok 9
      else if days <=? 7 then Ok 8
      else if days <=? 14 then Ok 6
      else if days <=? 30 then Ok 4
      else Ok 2
  end.

(** ** Documents *)

(** One entry of [repos] in the snapshot, as the metrics provider returns it. *)
Record repo_data : Type := {
  stargazers_count : option Z;
  forks_count : option Z;
  open_issues_count : option Z;
  pushed_at : option string
}.

Record snapshot : Type := {
  updated_at : string;
  repos : gmap string repo_data
}.

(** A score breakdown: one value of the [scores] dict. *)
Record row : Type := {
  product : Z;
  ai_fit : Z;
  reliability : Z;
  ecosystem : Z;
  momentum : Z;
  total : Z
}.

(** A task of [tasks/queue.json]; [task_other] holds keys outside the queue
    format, so that the empty dict is the task with no field at all. *)
Record task : Type := {
  task_id : option string;
  task_title : option string;
  task_kind : option string;
  task_status : option string;
  task_command : option string;
  task_boost : option (gmap string Z);
  task_result : option string;
  task_completed_at : option string;
  task_other : list (string * string)
}.

(** [data/autopilot_state.json]; [last_total = None] is JSON [null]. *)
Record state : Type := {
  fileview_boost : gmap string Z;
  last_total : option Z;
  no_delta_cycles : Z;
  completed_tasks : list string;
  last_task_result : option string;
  last_cycle_at : option string
}.

(** What [render_score_md] is given; the Markdown text itself is the report
    publisher's business. *)
Record report : Type := {
  report_snapshot : snapshot;
  report_scores : gmap string row;
  report_delta : Z
}.

(** ** Constants *)

Definition REPOS : list (string * string) :=
  [("fileview", "Hiro-Chiba/fileview");
   ("yazi", "sxyazi/yazi");
   ("lf", "gokcehan/lf");
   ("nnn", "jarun/nnn");
   ("ranger", "ranger/ranger")].

Definition metrics (stars forks issues : Z) : repo_data :=
  {| stargazers_count := Some stars; forks_count := Some forks;
     open_issues_count := Some issues; pushed_at := None |}.

Definition FALLBACK_METRICS : gmap string repo_data :=
  list_to_map
    [("fileview", metrics 0 0 0);
     ("yazi", metrics 32179 701 73);
     ("lf", metrics 9026 359 66);
     ("nnn", metrics 21191 798 2);
     ("ranger", metrics 16834 923 921)].

Record base : Type := {
  base_product : Z;
  base_ai_fit : Z;
  base_reliability : Z
}.

Definition BASE_SCORES : list (string * base) :=
  [("fileview", {| base_product := 22; base_ai_fit := 18; base_reliability := 10 |});
   ("yazi", {| base_product := 33; base_ai_fit := 6; base_reliability := 12 |});
   ("ranger", {| base_product := 29; base_ai_fit := 4; base_reliability := 13 |});
   ("nnn", {| base_product := 24; base_ai_fit := 3; base_reliability := 14 |});
   ("lf", {| base_product := 24; base_ai_fit := 3; base_reliability := 13 |})].

(** The tuple [("product", "ai_fit", "reliability", "ecosystem", "momentum")]. *)
Definition DIMS : list string :=
  ["product"; "ai_fit"; "reliability"; "ecosystem"; "momentum"].

Definition nl : string := String (ascii_of_nat 10) EmptyString.

(** ** The persisted documents and the outside world *)

Record world : Type := {
  state_file : option state;            (* data/autopilot_state.json *)
  queue_file : option (list task);      (* tasks/queue.json *)
  snapshot_file : option snapshot;      (* data/market_snapshot.json *)
  escalation_file : option string;      (* tasks/escalations.md *)
  score_file : option report;           (* score.md *)
  shell_log : list string               (* commands handed to /bin/zsh -lc *)
}.

(** What one cycle reads from outside the documents. *)
Record env : Type := {
  branch : string;                           (* git rev-parse --abbrev-ref HEAD *)
  gh_api : string → nat → option repo_data;  (* gh api repos/<repo>, per attempt *)
  shell : string → Z * string;               (* returncode and stderr of a command *)
  git : bool → bool → result ();             (* commit and push, given the two flags *)
  now : Z;
  stamp : string
}.

Definition M (A : Type) : Type := world → result A * world.

#[global] Instance M_ret : MRet M := λ A a w, (Ok a, w).

#[global] Instance M_bind : MBind M :=
  λ A B f m w,
    match m w with
    | (Ok a, w') => f a w'
    | (Raise e, w') => (Raise e, w')
    end.

Definition lift {A} (r : result A) : M A := λ w, (r, w).

Definition set_state_file (v : option state) (w : world) : world :=
  {| state_file := v; queue_file := queue_file w; snapshot_file := snapshot_file w;
     escalation_file := escalation_file w; score_file := score_file w;
     shell_log := shell_log w |}.

Definition set_queue_file (v : option (list task)) (w : world) : world :=
  {| state_file := state_file w; queue_file := v; snapshot_file := snapshot_file w;
     escalation_file := escalation_file w; score_file := score_file w;
     shell_log := shell_log w |}.

Definition set_snapshot_file (v : option snapshot) (w : world) : world :=
  {| state_file := state_file w; queue_file := queue_file w; snapshot_file := v;
     escalation_file := escalation_file w; score_file := score_file w;
     shell_log := shell_log w |}.

Definition set_escalation_file (v : option string) (w : world) : world :=
  {| state_file := state_file w; queue_file := queue_file w;
     snapshot_file := snapshot_file w; escalation_file := v;
     score_file := score_file w; shell_log := shell_log w |}.

Definition set_score_file (v : option report) (w : world) : world :=
  {| state_file := state_file w; queue_file := queue_file w;
     snapshot_file := snapshot_file w; escalation_file := escalation_file w;
     score_file := v; shell_log := shell_log w |}.

Definition set_shell_log (v : list string) (w : world) : world :=
  {| state_file := state_file w; queue_file := queue_file w;
     snapshot_file := snapshot_file w; escalation_file := escalation_file w;
     score_file := score_file w; shell_log := v |}.

(** A loop whose body may raise. *)
Fixpoint foldM {A B} (f : A → B → result A) (l : list B) (a : A) : result A :=
  match l with
  | [] => Ok a
  | x :: l' => a' ← f a x; foldM f l' a'
  end.

(** ** Metrics snapshot fetcher *)

Fixpoint fetch_attempts (gh : nat → option repo_data) (n i : nat) : option repo_data :=
  match n with
  | O => None
  | S n' =>
      match gh i with
      | Some data => Some data
      | None => fetch_attempts gh n' (S i)
      end
  end.

(** Three attempts, the first success wins. *)
Definition fetch_repo (e : env) (repo : string) : option repo_data :=
  fetch_attempts (gh_api e repo) 3 0.

Definition fetch_market_snapshot (e : env) : M snapshot :=
  λ w,
    let previous := from_option repos ∅ (snapshot_file w) in
    let body (acc : gmap string repo_data) (kr : string * string) :=
      let '(key, repo) := kr in
      data ← match fetch_repo e repo with
             | Some data => Ok data
             | None =>
                 match previous !! key with
                 | Some data => Ok data
                 | None => getitem key (FALLBACK_METRICS !! key)
                 end
             end;
      Ok (<[key := data]> acc) in
    match foldM body REPOS ∅ with
    | Ok rs =>
        let snap := {| updated_at := stamp e; repos := rs |} in
        (Ok snap, set_snapshot_file (Some snap) w)
    | Raise ex => (Raise ex, w)
    end.

(** ** Score engine *)

(** [max(values, default=d)] *)
Definition max_default (l : list Z) (d : Z) : Z :=
  match l with
  | [] => d
  | x :: l' => foldl Z.max x l'
  end.

(** [row[key] += v] *)
Definition row_iadd (key : string) (v : Z) (r : row) : result row :=
  if String.eqb key "product" then
    Ok {| product := product r + v; ai_fit := ai_fit r; reliability := reliability r;
          ecosystem := ecosystem r; momentum := momentum r; total := total r |}
  else if String.eqb key "ai_fit" then
    Ok {| product := product r; ai_fit := ai_fit r + v; reliability := reliability r;
          ecosystem := ecosystem r; momentum := momentum r; total := total r |}
  else if String.eqb key "reliability" then
    Ok {| product := product r; ai_fit := ai_fit r; reliability := reliability r + v;
          ecosystem := ecosystem r; momentum := momentum r; total := total r |}
  else if String.eqb key "ecosystem" then
    Ok {| product := product r; ai_fit := ai_fit r; reliability := reliability r;
          ecosystem := ecosystem r + v; momentum := momentum r; total := total r |}
  else if String.eqb key "momentum" then
    Ok {| product := product r; ai_fit := ai_fit r; reliability := reliability r;
          ecosystem := ecosystem r; momentum := momentum r + v; total := total r |}
  else if String.eqb key "total" then
    Ok {| product := product r; ai_fit := ai_fit r; reliability := reliability r;
          ecosystem := ecosystem r; momentum := momentum r; total := total r + v |}
  else Raise (KeyError key).

Definition set_total (v : Z) (r : row) : row :=
  {| product := product r; ai_fit := ai_fit r; reliability := reliability r;
     ecosystem := ecosystem r; momentum := momentum r; total := v |}.

Definition apply_boosts (scores : gmap string row) (st : state)
  : result (gmap string row) :=
  let boost := fileview_boost st in
  foldM (λ scores key,
           r ← getitem "fileview" (scores !! "fileview");
           r' ← row_iadd key (default 0 (boost !! key)) r;
           Ok (<["fileview" := r']> scores))
        DIMS scores.

Definition build_scores (now : Z) (snap : snapshot) (st : state)
  : result (gmap string row) :=
  let repos := repos snap in
  let stars := (λ v, default 0 (stargazers_count v)) <$> repos in
  let max_stars := max_default (snd <$> map_to_list stars) 0 in
  scores ← foldM (λ (scores : gmap string row) (kb : string * base),
                    let '(key, base) := kb in
                    let repo_data := repos !! key in
                    eco ← ecosystem_score
                            (default 0 (repo_data ≫= stargazers_count)) max_stars;
                    mom ← momentum_score now (repo_data ≫= pushed_at);
                    Ok (<[key := {| product := base_product base;
                                    ai_fit := base_ai_fit base;
                                    reliability := base_reliability base;
                                    ecosystem := eco;
                                    momentum := mom;
                                    total := base_product base + base_ai_fit base
                                             + base_reliability base + eco + mom |}]>
                          scores))
                 BASE_SCORES ∅;
  scores ← apply_boosts scores st;
  fv ← getitem "fileview" (scores !! "fileview");
  Ok (<["fileview" := set_total (product fv + ai_fit fv + reliability fv
                                 + ecosystem fv + momentum fv) fv]> scores).

Definition render_score_md (snap : snapshot) (scores : gmap string row) (delta : Z)
  : report :=
  {| report_snapshot := snap; report_scores := scores; report_delta := delta |}.

(** ** Task queue executor *)

(** The default of [load_state], used when the state document is missing. *)
Definition DEFAULT_STATE : state :=
  {| fileview_boost :=
       list_to_map [("product", 0); ("ai_fit", 0); ("reliability", 0);
                    ("ecosystem", 0); ("momentum", 0)];
     last_total := None;
     no_delta_cycles := 0;
     completed_tasks := [];
     last_task_result := None;
     last_cycle_at := None |}.

Definition load_state : M state :=
  λ w, (Ok (default DEFAULT_STATE (state_file w)), w).

(** [load_json(QUEUE_PATH, {"tasks": []})] followed by [queue.get("tasks", [])]. *)
Definition load_queue : M (list task) :=
  λ w, (Ok (default [] (queue_file w)), w).

Definition save_queue (queue : list task) : M unit :=
  λ w, (Ok (), set_queue_file (Some queue) w).

Definition save_state (st : state) : M unit :=
  λ w, (Ok (), set_state_file (Some st) w).

Definition write_score (r : report) : M unit :=
  λ w, (Ok (), set_score_file (Some r) w).

(** [run(["/bin/zsh", "-lc", cmd], check=False)] *)
Definition run_shell (e : env) (cmd : string) : M (Z * string) :=
  λ w, (Ok (shell e cmd), set_shell_log (shell_log w ++ [cmd]) w).

Definition escalation_line (e : env) (id title : string) : string :=
  "- " +:+ stamp e +:+ " | " +:+ id +:+ " | " +:+ title
  +:+ " | kind=major | action required" +:+ nl.

(** The two branches on [ESCALATION_PATH.exists()]. *)
Definition append_escalation (line : string) : M unit :=
  λ w,
    match escalation_file w with
    | Some text => (Ok (), set_escalation_file (Some (text +:+ line)) w)
    | None =>
        (Ok (), set_escalation_file (Some ("# Escalations" +:+ nl +:+ nl +:+ line)) w)
    end.

Definition write_escalation (e : env) (t : task) : M unit :=
  id ← lift (getitem "id" (task_id t));
  title ← lift (getitem "title" (task_title t));
  append_escalation (escalation_line e id title).

(** [t.get("status", "todo") == "todo"] *)
Definition is_todo (t : task) : Prop := default "todo" (task_status t) = "todo".

#[global] Instance is_todo_dec (t : task) : Decision (is_todo t).
Proof. unfold is_todo. apply _. Defined.

(** Truth value of a task dict: false exactly for the empty dict. *)
Definition task_nonempty (t : task) : bool :=
  match task_id t, task_title t, task_kind t, task_status t, task_command t,
        task_boost t, task_result t, task_completed_at t, task_other t with
  | None, None, None, None, None, None, None, None, [] => false
  | _, _, _, _, _, _, _, _, _ => true
  end.

Definition set_outcome (status : string) (res : option string)
    (completed : option string) (t : task) : task :=
  {| task_id := task_id t; task_title := task_title t; task_kind := task_kind t;
     task_status := Some status; task_command := task_command t;
     task_boost := task_boost t;
     task_result := match res with Some r => Some r | None => task_result t end;
     task_completed_at :=
       match completed with Some c => Some c | None => task_completed_at t end;
     task_other := task_other t |}.

(** [s[-n:]] for [n > 0] *)
Definition last_chars (n : nat) (s : string) : string :=
  string_of_list_ascii (drop (List.length (list_ascii_of_string s) - n)
                             (list_ascii_of_string s)).

Definition set_boost (b : gmap string Z) (st : state) : state :=
  {| fileview_boost := b; last_total := last_total st;
     no_delta_cycles := no_delta_cycles st; completed_tasks := completed_tasks st;
     last_task_result := last_task_result st; last_cycle_at := last_cycle_at st |}.

Definition append_completed (id : string) (st : state) : state :=
  {| fileview_boost := fileview_boost st; last_total := last_total st;
     no_delta_cycles := no_delta_cycles st;
     completed_tasks := completed_tasks st ++ [id];
     last_task_result := last_task_result st; last_cycle_at := last_cycle_at st |}.

(** The loop [state["fileview_boost"][k] += int(task_boost.get(k, 0))]. *)
Definition add_boosts (task_boost boost : gmap string Z) : result (gmap string Z) :=
  foldM (λ (b : gmap string Z) k,
           cur ← getitem k (b !! k);
           Ok (<[k := cur + default 0 (task_boost !! k)]> b))
        DIMS boost.

Definition execute_task (e : env) (queue : list task) (st : state)
  : M (string * list task * state) :=
  match list_find is_todo queue with
  | None => mret ("no_task", queue, st)
  | Some (i, todo) =>
      if negb (task_nonempty todo) then mret ("no_task", queue, st)
      else if String.eqb (default "normal" (task_kind todo)) "major" then
        write_escalation e todo;;
        mret ("major", queue, st)
      else
        match task_command todo with
        | None | Some "" =>
            let todo := set_outcome "blocked" (Some "missing command") None todo in
            let queue := <[i := todo]> queue in
            save_queue queue;;
            mret ("blocked", queue, st)
        | Some cmd =>
            cp ← run_shell e cmd;
            if negb (cp.1 =? 0) then
              let todo := set_outcome "failed" (Some (last_chars 800 cp.2)) None todo in
              let queue := <[i := todo]> queue in
              save_queue queue;;
              mret ("failed", queue, st)
            else
              let todo := set_outcome "done" None (Some (stamp e)) todo in
              let queue := <[i := todo]> queue in
              boost ← lift (add_boosts (default ∅ (task_boost todo)) (fileview_boost st));
              let st := set_boost boost st in
              id ← lift (getitem "id" (task_id todo));
              let st := append_completed id st in
              save_queue queue;;
              mret ("done", queue, st)
        end
  end.

(** ** Cycle controller *)

Definition ensure_dirs : M unit := mret ().

Definition branch_guard (e : env) : M unit :=
  if String.eqb (branch e) "develop" then mret () else lift (Raise (SystemExit 2)).

(** Version control is an outside collaborator: its outcome is read from [env]. *)
Definition maybe_commit_push (e : env) (no_commit no_push : bool) : M unit :=
  if no_commit then mret () else lift (git e no_commit no_push).

Definition end_of_cycle (ndc after : Z) (task_result : string) (e : env) (st : state)
  : state :=
  {| fileview_boost := fileview_boost st;
     last_total := Some after;
     no_delta_cycles := ndc;
     completed_tasks := completed_tasks st;
     last_task_result := Some task_result;
     last_cycle_at := Some (stamp e) |}.

Definition run_cycle (e : env) (no_commit no_push : bool) : M Z :=
  ensure_dirs;;
  branch_guard e;;
  st ← load_state;
  queue ← load_queue;
  let before := default 0 (last_total st) in
  snap ← fetch_market_snapshot e;
  '(task_result, queue, st) ← execute_task e queue st;
  scores ← lift (build_scores (now e) snap st);
  fv ← lift (getitem "fileview" (scores !! "fileview"));
  let after := total fv in
  let delta := if before =? 0 then 0 else after - before in
  write_score (render_score_md snap scores delta);;
  let ndc :=
    if String.eqb task_result "done"
    then (if delta =? 0 then no_delta_cycles st + 1 else 0)
    else no_delta_cycles st in
  save_state (end_of_cycle ndc after task_result e st);;
  maybe_commit_push e no_commit no_push;;
  if String.eqb task_result "major" then mret 10
  else if 2 <=? ndc then mret 11
  else mret 0.

(** ** Entry point *)

(** The cycles of [while True] in [main]: cycle [k] runs in the environment
    [envs k]; the loop returns the first decision code that is 10 or 11 and
    propagates an exception. [None] means the loop is still running when
    [fuel] cycles have been spent ([time.sleep] has no effect on the
    documents). *)
Fixpoint main_loop (fuel : nat) (envs : nat → env) (k : nat)
    (no_commit no_push : bool) (w : world) : option (result Z) * world :=
  match fuel with
  | O => (None, w)
  | S fuel' =>
      match run_cycle (envs k) no_commit no_push w with
      | (Ok code, w') =>
          if (code =? 10) || (code =? 11) then (Some (Ok code), w')
          else main_loop fuel' envs (S k) no_commit no_push w'
      | (Raise ex, w') => (Some (Raise ex), w')
      end
  end.

(** [main] on the parsed flags [--loop], [--no-commit] and [--no-push]. *)
Definition main (loop no_commit no_push : bool) (envs : nat → env) (fuel : nat)
    (w : world) : option (result Z) * world :=
  if negb loop then
    let '(r, w') := run_cycle (envs 0%nat) no_commit no_push w in (Some r, w')
  else main_loop fuel envs 0 no_commit no_push w.

(** * Vocabulary of the properties *)

(** An optional timestamp: absent, empty, or a string that parses to an
    aware datetime. *)
Definition timestamp_ok (p : option string) : bool :=
  match p with
  | None => true
  | Some "" => true
  | Some s =>
      match fromisoformat (replace_Z s) with
      | Ok t => bool_decide (is_Some (dt_utcoffset t))
      | Raise _ => false
      end
  end.

(** The shape of the loops of [fetch_market_snapshot] and [build_scores]:
    one value computed and stored per entity. *)
Definition insert_resolved {B V : Type} (F : string → B → result V)
    (acc : gmap string V) (kr : string * B) : result (gmap string V) :=
  let '(key, repo) := kr in
  data ← F key repo;
  Ok (<[key := data]> acc).

(** The five ways one invocation of the executor can return, as a relation
    between the queue, state and documents before and after. *)
Inductive executes (e : env) (queue : list task) (st : state) (w : world)
  : string → list task → state → world → Prop :=
| exec_no_task :
    (list_find is_todo queue = None
     ∨ ∃ i t, list_find is_todo queue = Some (i, t) ∧ task_nonempty t = false) →
    executes e queue st w "no_task" queue st w
| exec_major i t id title :
    list_find is_todo queue = Some (i, t) →
    default "normal" (task_kind t) = "major" →
    task_id t = Some id →
    task_title t = Some title →
    executes e queue st w "major" queue st
      (set_escalation_file
         (Some (match escalation_file w with
                | Some text => text +:+ escalation_line e id title
                | None => "# Escalations" +:+ nl +:+ nl +:+ escalation_line e id title
                end)) w)
| exec_blocked i t :
    list_find is_todo queue = Some (i, t) →
    task_nonempty t = true →
    default "normal" (task_kind t) ≠ "major" →
    (task_command t = None ∨ task_command t = Some "") →
    let queue' := <[i := set_outcome "blocked" (Some "missing command") None t]> queue in
    executes e queue st w "blocked" queue' st (set_queue_file (Some queue') w)
| exec_failed i t cmd :
    list_find is_todo queue = Some (i, t) →
    default "normal" (task_kind t) ≠ "major" →
    task_command t = Some cmd → cmd ≠ "" →
    (shell e cmd).1 ≠ 0 →
    let queue' :=
      <[i := set_outcome "failed" (Some (last_chars 800 (shell e cmd).2)) None t]> queue in
    executes e queue st w "failed" queue' st
      (set_queue_file (Some queue') (set_shell_log (shell_log w ++ [cmd]) w))
| exec_done i t cmd boost id :
    list_find is_todo queue = Some (i, t) →
    default "normal" (task_kind t) ≠ "major" →
    task_command t = Some cmd → cmd ≠ "" →
    (shell e cmd).1 = 0 →
    add_boosts (default ∅ (task_boost t)) (fileview_boost st) = Ok boost →
    task_id t = Some id →
    let queue' := <[i := set_outcome "done" None (Some (stamp e)) t]> queue in
    executes e queue st w "done" queue' (append_completed id (set_boost boost st))
      (set_queue_file (Some queue') (set_shell_log (shell_log w ++ [cmd]) w)).

(** Task [j] was [todo] before the invocation and is not afterwards. *)
Definition left_todo (queue queue' : list task) (j : nat) : Prop :=
  ∃ t t', queue !! j = Some t ∧ queue' !! j = Some t' ∧ is_todo t ∧ ¬ is_todo t'.

(** [stars] and [max_stars] as [build_scores] computes them. *)
Definition max_stars_of (snap : snapshot) : Z :=
  max_default
    (snd <$> map_to_list ((λ v, default 0 (stargazers_count v)) <$> repos snap)) 0.

(** The row [build_scores] builds for one entity before any boost. *)
Definition entity_row (now : Z) (snap : snapshot) (key : string) (b : base)
  : result row :=
  eco ← ecosystem_score (default 0 (repos snap !! key ≫= stargazers_count))
                        (max_stars_of snap);
  mom ← momentum_score now (repos snap !! key ≫= pushed_at);
  Ok {| product := base_product b; ai_fit := base_ai_fit b;
        reliability := base_reliability b; ecosystem := eco; momentum := mom;
        total := base_product b + base_ai_fit b + base_reliability b + eco + mom |}.

Definition unboosted_rows (now : Z) (snap : snapshot) : result (gmap string row) :=
  foldM (insert_resolved (entity_row now snap)) BASE_SCORES ∅.

Definition boosted (boost : gmap string Z) (r : row) : row :=
  {| product := product r + default 0 (boost !! "product");
     ai_fit := ai_fit r + default 0 (boost !! "ai_fit");
     reliability := reliability r + default 0 (boost !! "reliability");
     ecosystem := ecosystem r + default 0 (boost !! "ecosystem");
     momentum := momentum r + default 0 (boost !! "momentum");
     total := total r |}.

(** What a cycle leaves behind for the next one to see. *)
Definition loaded_state (w : world) : state := default DEFAULT_STATE (state_file w).
Definition counter (w : world) : Z := no_delta_cycles (loaded_state w).
Definition reported_outcome (w : world) : option string :=
  state_file w ≫= last_task_result.
Definition reported_delta (w : world) : option Z := report_delta <$> score_file w.
Definition persisted_total (w : world) : option Z := state_file w ≫= last_total.

(** The boost declared by the task the executor selects. *)
Definition selected_boost (queue : list task) : gmap string Z :=
  default ∅ (list_find is_todo queue ≫= λ it, task_boost it.2).

(** The delta, counter, decision and final documents of a cycle, as
    [run_cycle] computes them from the state it loaded ([st0]), the state
    and documents the executor left ([st1], [w2]) and the scores. *)
Definition cycle_delta (st0 : state) (fv : row) : Z :=
  let before := default 0 (last_total st0) in
  if before =? 0 then 0 else total fv - before.

Definition cycle_counter (rt : string) (delta : Z) (st1 : state) : Z :=
  if String.eqb rt "done"
  then (if delta =? 0 then no_delta_cycles st1 + 1 else 0)
  else no_delta_cycles st1.

Definition decision (rt : string) (ndc : Z) : Z :=
  if String.eqb rt "major" then 10 else if 2 <=? ndc then 11 else 0.

Definition cycle_end (e : env) (snap : snapshot) (scores : gmap string row)
    (fv : row) (rt : string) (st0 st1 : state) (w2 : world) : world :=
  set_state_file
    (Some (end_of_cycle (cycle_counter rt (cycle_delta st0 fv) st1) (total fv) rt e st1))
    (set_score_file (Some (render_score_md snap scores (cycle_delta st0 fv))) w2).

(** The task the executor would select from the queue document. *)
Definition selected (w : world) : option (nat * task) :=
  list_find is_todo (default [] (queue_file w)).

(** The queue offers nothing to run: no [todo] entry, or the first one is
    the empty object. *)
Definition idle (w : world) : Prop :=
  match selected w with
  | None => True
  | Some (_, t) => task_nonempty t = false
  end.

(** The first [todo] entry is a major task. *)
Definition major_head (w : world) : Prop :=
  ∃ i t, selected w = Some (i, t) ∧ task_kind t = Some "major".

(** ** Scenarios *)

Definition major_task : task :=
  {| task_id := Some "t9"; task_title := Some "Rewrite the renderer";
     task_kind := Some "major"; task_status := Some "todo";
     task_command := Some "make release"; task_boost := None;
     task_result := None; task_completed_at := None; task_other := [] |}.

Definition quiet_env : env :=
  {| branch := "develop";
     gh_api := λ _ _, Some (metrics 0 0 0);
     shell := λ _, (0, "");
     git := λ _ _, Ok ();
     now := 1705314600;
     stamp := "2024-01-15T10:30:00Z" |}.

Definition empty_world : world :=
  {| state_file := None; queue_file := None; snapshot_file := None;
     escalation_file := None; score_file := None; shell_log := [] |}.

Definition bare_snapshot : snapshot :=
  {| updated_at := "2024-01-15T10:30:00Z"; repos := ∅ |}.

Definition generous_state : state :=
  set_boost (list_to_map [("product", 2); ("ai_fit", 1); ("reliability", 0);
                          ("ecosystem", 15); ("momentum", 10)])
            DEFAULT_STATE.

Definition pushed_snapshot : snapshot :=
  {| updated_at := "2024-01-15T10:30:00Z";
     repos := {[ "fileview" :=
                   {| stargazers_count := Some 0; forks_count := Some 0;
                      open_issues_count := Some 0;
                      pushed_at := Some "2024-01-15T10:30:00Z" |} ]} |}.

Definition normal_task (id : string) (boost : gmap string Z) : task :=
  {| task_id := Some id; task_title := Some id; task_kind := Some "normal";
     task_status := Some "todo"; task_command := Some "true";
     task_boost := Some boost; task_result := None; task_completed_at := None;
     task_other := [] |}.

Definition with_queue (queue : list task) : world :=
  set_queue_file (Some queue) empty_world.

(** A queue of two plain tasks and a major one; every fetch reports no
    stars, so each cycle scores [fileview] at 22 + 18 + 10 + 1 + 1. *)
Definition stalled_world : world :=
  with_queue [normal_task "t1" ∅; normal_task "t2" ∅; major_task].

(** A queue whose first task cancels the whole score and whose second adds 3. *)
Definition zeroing_world : world :=
  with_queue [normal_task "t1" {[ "product" := -52 ]};
              normal_task "t2" {[ "product" := 3 ]}].

(** An environment in which every live fetch fails. *)
Definition offline_env : env :=
  {| branch := "develop";
     gh_api := λ _ _, None;
     shell := λ _, (0, "");
     git := λ _ _, Ok ();
     now := 1705401000;
     stamp := "2024-01-16T10:30:00Z" |}.

(** A snapshot whose only record is the leader's. *)
Definition leader_snapshot : snapshot :=
  {| updated_at := "2024-01-15T10:30:00Z";
     repos := {[ "yazi" := metrics 32179 701 73 ]} |}.

(** A runnable task that carries no [id]. *)
Definition anonymous_task : task :=
  {| task_id := None; task_title := Some "Untitled"; task_kind := None;
     task_status := None; task_command := Some "true"; task_boost := None;
     task_result := None; task_completed_at := None; task_other := [] |}.

(** The empty JSON object. *)
Definition empty_task : task :=
  {| task_id := None; task_title := None; task_kind := None; task_status := None;
     task_command := None; task_boost := None; task_result := None;
     task_completed_at := None; task_other := [] |}.

(** An environment whose commands all fail, with a long error output. *)
Definition failing_env : env :=
  {| branch := "develop";
     gh_api := λ _ _, Some (metrics 0 0 0);
     shell := λ _, (1, "error: " +:+ string_of_list_ascii (replicate 1000 "x"%char));
     git := λ _ _, Ok ();
     now := 1705314600;
     stamp := "2024-01-15T10:30:00Z" |}.

(** * Properties *)

(** ** Rounding and logarithms *)

Section Rounding.

Open Scope R_scope.

Lemma round_near (x : R) : IZR (round x) - 1 / 2 <= x <= IZR (round x) + 1 / 2.
Proof.
  unfold round.
  destruct (base_Int_part x) as [Hlo Hhi].
  set (f := Int_part x) in *.
  destruct (Rlt_dec (x - IZR f) (1 / 2)) as [Hd | Hd].
  - lra.
  - destruct (Rlt_dec (1 / 2) (x - IZR f)) as [Hu | Hu].
    + rewrite plus_IZR. lra.
    + destruct (Z.even f); [lra | rewrite plus_IZR; lra].
Qed.

(** Rounding to nearest never reverses an order. *)
Lemma round_mono (x y : R) : x <= y → (round x <= round y)%Z.
Proof.
  intros Hxy.
  destruct (Z_le_gt_dec (round x) (round y)) as [Hle | Hgt]; [exact Hle |].
  assert (Hstep : IZR (round y) + 1 <= IZR (round x)).
  { rewrite <- plus_IZR. apply IZR_le. lia. }
  pose proof (round_near x) as [Hx _].
  pose proof (round_near y) as [_ Hy].
  assert (Heq : x = y) by lra.
  subst y. lia.
Qed.

Lemma round_0 : round 0 = 0%Z.
Proof.
  pose proof (round_near 0) as [Hlo Hhi].
  assert (H1 : (-1 < round 0)%Z).
  { apply lt_IZR. lra. }
  assert (H2 : (round 0 < 1)%Z).
  { apply lt_IZR. lra. }
  lia.
Qed.

Lemma ln_le (x y : R) : 0 < x → x <= y → ln x <= ln y.
Proof.
  intros Hx [Hlt | ->]; [| lra].
  left. now apply ln_increasing.
Qed.

Lemma ln_gt_0 (x : R) : 1 < x → 0 < ln x.
Proof.
  intros Hx. rewrite <- ln_1. apply ln_increasing; lra.
Qed.

Lemma log10_ok (n : Z) : (0 < n)%Z → log10 n = Ok (ln (IZR n) / ln 10).
Proof.
  intros Hn. unfold log10.
  destruct (Z.leb_spec n 0); [lia | reflexivity].
Qed.

Lemma log10_pos (n : Z) : (2 <= n)%Z → 0 < ln (IZR n) / ln 10.
Proof.
  intros Hn.
  apply Rdiv_lt_0_compat.
  - apply ln_gt_0. apply (IZR_lt 1 n). lia.
  - apply ln_gt_0. lra.
Qed.

End Rounding.

(** ** Ecosystem and momentum sub-scores *)

(** The value [ecosystem_score] computes past its guard. *)
Lemma ecosystem_score_eq (stars max_stars : Z) :
  0 <= stars → 0 < max_stars →
  ecosystem_score stars max_stars
  = Ok (Z.max 1 (Z.min 15
          (round (ln (IZR (stars + 1)) / ln 10
                  / (ln (IZR (max_stars + 1)) / ln 10) * 15)))).
Proof.
  intros Hs Hm. unfold ecosystem_score.
  destruct (Z.leb_spec max_stars 0); [lia |].
  rewrite !log10_ok by lia. cbn.
  unfold truediv.
  destruct (Req_dec_T _ _) as [Hz | _]; [| reflexivity].
  pose proof (log10_pos (max_stars + 1) ltac:(lia)). lra.
Qed.

Lemma ecosystem_score_range (stars max_stars : Z) :
  0 <= stars →
  ∃ v, ecosystem_score stars max_stars = Ok v ∧ 1 <= v <= 15.
Proof.
  intros Hs.
  destruct (Z_le_gt_dec max_stars 0) as [Hm | Hm].
  - exists 1. split; [| lia].
    unfold ecosystem_score. destruct (Z.leb_spec max_stars 0); [reflexivity | lia].
  - eexists. split; [apply ecosystem_score_eq; lia | lia].
Qed.

(** A repository without stars scores the minimum whatever the leader has. *)
Lemma ecosystem_score_no_stars (max_stars : Z) : ecosystem_score 0 max_stars = Ok 1.
Proof.
  destruct (Z_le_gt_dec max_stars 0) as [Hm | Hm].
  - unfold ecosystem_score. destruct (Z.leb_spec max_stars 0); [reflexivity | lia].
  - rewrite ecosystem_score_eq by lia.
    replace (ln (IZR (0 + 1)) / ln 10 / (ln (IZR (max_stars + 1)) / ln 10) * 15)%R
      with 0%R.
    + now rewrite round_0.
    + change (0 + 1) with 1. rewrite ln_1. unfold Rdiv. now rewrite !Rmult_0_l.
Qed.

(** A push two days before the clock reading scores 9; a naive or
    malformed timestamp raises. *)
Example momentum_two_days :
  momentum_score (1705314600 + 2 * 86400) (Some "2024-01-15T10:30:00Z") = Ok 9
  ∧ momentum_score 1705314600 (Some "2024-01-15T10:30:00") = Raise TypeError
  ∧ momentum_score 1705314600 (Some "yesterday") = Raise ValueError.
Proof. repeat split; vm_compute; reflexivity. Qed.

Lemma momentum_score_range (now : Z) (p : option string) (v : Z) :
  momentum_score now p = Ok v → 1 <= v <= 10.
Proof.
  unfold momentum_score.
  destruct p as [[| c s] |]; try (intros [= <-]; lia).
  destruct (fromisoformat _) as [t | ex]; cbn; [| discriminate].
  destruct (days_since now t) as [d | ex]; cbn; [| discriminate].
  repeat (destruct (_ <=? _)); intros [= <-]; lia.
Qed.

Lemma momentum_score_returns (now : Z) (p : option string) :
  timestamp_ok p = true → ∃ v, momentum_score now p = Ok v.
Proof.
  unfold timestamp_ok, momentum_score.
  destruct p as [[| c s] |]; try (intros _; eexists; reflexivity).
  destruct (fromisoformat _) as [t | ex]; cbn; [| discriminate].
  unfold days_since.
  destruct (dt_utcoffset t) as [off |]; cbn; [intros _ | discriminate].
  repeat (destruct (_ <=? _)); eexists; reflexivity.
Qed.

(** C6. For non-negative star counts (and any [max_stars])
    [ecosystem_score] returns a value in [1, 15]; on every optional
    timestamp [momentum_score] returns a value, and whatever it returns lies
    in [1, 10]; with [max_stars = 0], [ecosystem_score 0] is [1], returned
    by the guard before any division. *)
Theorem C6_subscore_ranges (stars max_stars : Z) :
  0 <= stars → 0 <= max_stars →
  (∃ v, ecosystem_score stars max_stars = Ok v ∧ 1 <= v <= 15)
  ∧ (∀ now p, timestamp_ok p = true →
       ∃ v, momentum_score now p = Ok v ∧ 1 <= v <= 10)
  ∧ (∀ now p v, momentum_score now p = Ok v → 1 <= v <= 10)
  ∧ ecosystem_score 0 0 = Ok 1.
Proof.
  intros Hs _. repeat split.
  - now apply ecosystem_score_range.
  - intros now p Hp.
    destruct (momentum_score_returns now p Hp) as [v Hv].
    exists v. split; [exact Hv | now apply momentum_score_range in Hv].
  - now apply momentum_score_range in H.
  - now apply momentum_score_range in H.
Qed.

Lemma C6_subscore_ranges_witness :
  (∃ v, ecosystem_score 9026 32179 = Ok v ∧ 1 <= v <= 15)
  ∧ (∃ v, momentum_score 1705487400 (Some "2024-01-15T10:30:00Z") = Ok v
          ∧ 1 <= v <= 10).
Proof.
  destruct (C6_subscore_ranges 9026 32179 ltac:(lia) ltac:(lia))
    as (Heco & Hmom & _).
  split; [exact Heco |].
  apply Hmom. vm_compute. reflexivity.
Defined.



(** ** Metrics snapshot fetcher *)

Section InsertLoop.

Context {B V : Type} (F : string → B → result V).

Lemma insert_loop_returns (l : list (string * B)) (acc : gmap string V) :
  (∀ key repo, (key, repo) ∈ l → ∃ d, F key repo = Ok d) →
  ∃ rs, foldM (insert_resolved F) l acc = Ok rs.
Proof.
  revert acc. induction l as [| [key repo] l IH]; intros acc Hall.
  - eexists. reflexivity.
  - destruct (Hall key repo) as [d Hd]; [left |].
    cbn. rewrite Hd. cbn.
    apply IH. intros k r Hin. apply Hall. now right.
Qed.

Lemma insert_loop_other (l : list (string * B)) (acc rs : gmap string V)
    (k : string) :
  foldM (insert_resolved F) l acc = Ok rs → k ∉ l.*1 → rs !! k = acc !! k.
Proof.
  revert acc. induction l as [| [key repo] l IH]; intros acc Hrun Hk.
  - now injection Hrun as <-.
  - cbn in Hrun. destruct (F key repo) as [d | ex]; [| discriminate].
    cbn in Hrun, Hk. apply not_elem_of_cons in Hk as [Hne Hk].
    rewrite (IH _ Hrun Hk). now apply lookup_insert_ne.
Qed.

Lemma insert_loop_lookup (l : list (string * B)) (acc rs : gmap string V)
    (key : string) (repo : B) :
  NoDup l.*1 → foldM (insert_resolved F) l acc = Ok rs → (key, repo) ∈ l →
  ∃ d, F key repo = Ok d ∧ rs !! key = Some d.
Proof.
  revert acc. induction l as [| [k r] l IH]; intros acc Hnd Hrun Hin.
  - inversion Hin.
  - cbn in Hrun. destruct (F k r) as [d | ex] eqn:HF; [| discriminate].
    cbn in Hrun, Hnd. apply NoDup_cons in Hnd as [Hfresh Hnd].
    apply elem_of_cons in Hin as [[= -> ->] | Hin].
    + exists d. split; [exact HF |].
      rewrite (insert_loop_other _ _ _ _ Hrun Hfresh).
      apply lookup_insert_eq.
    + now apply (IH _ Hnd Hrun).
Qed.

End InsertLoop.

Lemma foldM_ext {A B} (f g : A → B → result A) (l : list B) (a : A) :
  (∀ a x, f a x = g a x) → foldM f l a = foldM g l a.
Proof.
  intros Hfg. revert a. induction l as [| x l IH]; intros a; [reflexivity |].
  cbn. rewrite Hfg. destruct (g a x); cbn; [apply IH | reflexivity].
Qed.

Lemma REPOS_keys_NoDup : NoDup REPOS.*1.
Proof. apply (bool_decide_unpack _). vm_compute. exact I. Qed.

Lemma FALLBACK_METRICS_total (key repo : string) :
  (key, repo) ∈ REPOS → is_Some (FALLBACK_METRICS !! key).
Proof.
  intros Hin. unfold REPOS in Hin.
  repeat (apply elem_of_cons in Hin as [[= -> ->] | Hin]);
    try (eexists; vm_compute; reflexivity).
  inversion Hin.
Qed.

(** The fetcher always completes a snapshot and persists exactly what it
    returns. *)
Lemma fetch_market_snapshot_returns (e : env) (w : world) :
  ∃ snap,
    fetch_market_snapshot e w = (Ok snap, set_snapshot_file (Some snap) w)
    ∧ updated_at snap = stamp e.
Proof.
  unfold fetch_market_snapshot.
  match goal with
  | |- context [foldM ?body REPOS ∅] =>
      destruct (insert_loop_returns
                  (λ key repo,
                     match fetch_repo e repo with
                     | Some data => Ok data
                     | None =>
                         match from_option repos ∅ (snapshot_file w) !! key with
                         | Some data => Ok data
                         | None => getitem key (FALLBACK_METRICS !! key)
                         end
                     end) REPOS ∅) as [rs Hrs]
  end.
  - intros key repo Hin.
    destruct (fetch_repo e repo); [eauto |].
    destruct (_ !! key); [eauto |].
    destruct (FALLBACK_METRICS_total key repo Hin) as [d ->]. cbn. eauto.
  - unfold insert_resolved in Hrs. rewrite Hrs. eauto.
Qed.

(** C8. Each entity's record in the new snapshot is the live fetch result if
    there is one, else the record of the prior persisted snapshot if there is
    one, else the entry of the static default table; in particular a failed
    fetch with no prior record yields the static default exactly. *)
Theorem C8_fallback_chain (e : env) (w : world) :
  ∃ snap,
    fetch_market_snapshot e w = (Ok snap, set_snapshot_file (Some snap) w)
    ∧ Forall (λ kr : string * string,
                ∃ data,
                  repos snap !! kr.1 = Some data
                  ∧ match fetch_repo e kr.2 with
                    | Some live => data = live
                    | None =>
                        match from_option repos ∅ (snapshot_file w) !! kr.1 with
                        | Some prior => data = prior
                        | None => FALLBACK_METRICS !! kr.1 = Some data
                        end
                    end)
             REPOS.
Proof.
  destruct (fetch_market_snapshot_returns e w) as (snap & Hrun & _).
  exists snap. split; [exact Hrun |].
  apply Forall_forall. intros [key repo] Hin. cbn [fst snd].
  unfold fetch_market_snapshot in Hrun.
  match type of Hrun with
  | context [foldM ?body REPOS ∅] => destruct (foldM body REPOS ∅) as [rs | ex] eqn:Hrs
  end; [| discriminate].
  injection Hrun as <-. cbn [repos].
  destruct (insert_loop_lookup
              (λ key repo,
                 match fetch_repo e repo with
                 | Some data => Ok data
                 | None =>
                     match from_option repos ∅ (snapshot_file w) !! key with
                     | Some data => Ok data
                     | None => getitem key (FALLBACK_METRICS !! key)
                     end
                 end) REPOS ∅ rs key repo REPOS_keys_NoDup Hrs Hin)
    as (d & Hd & Hlook).
  exists d. split; [exact Hlook |].
  destruct (fetch_repo e repo); [now injection Hd |].
  destruct (_ !! key); [now injection Hd |].
  destruct (FALLBACK_METRICS !! key); [now injection Hd as -> | discriminate].
Qed.

(** ** Task queue executor *)

Lemma add_boosts_lookup (task_boost boost boost' : gmap string Z) (k : string) :
  add_boosts task_boost boost = Ok boost' →
  boost' !! k
  = if bool_decide (k ∈ DIMS)
    then (λ b, b + default 0 (task_boost !! k)) <$> boost !! k
    else boost !! k.
Proof.
  unfold add_boosts, DIMS. cbn [foldM].
  destruct (boost !! "product") as [b1 |] eqn:E1; cbn; [| discriminate].
  rewrite lookup_insert_ne by done.
  destruct (boost !! "ai_fit") as [b2 |] eqn:E2; cbn; [| discriminate].
  rewrite !lookup_insert_ne by done.
  destruct (boost !! "reliability") as [b3 |] eqn:E3; cbn; [| discriminate].
  rewrite !lookup_insert_ne by done.
  destruct (boost !! "ecosystem") as [b4 |] eqn:E4; cbn; [| discriminate].
  rewrite !lookup_insert_ne by done.
  destruct (boost !! "momentum") as [b5 |] eqn:E5; cbn; [| discriminate].
  intros [= <-].
  case_bool_decide as Hk.
  - repeat (apply elem_of_cons in Hk as [-> | Hk]);
      [.. | inversion Hk]; simplify_map_eq; reflexivity.
  - rewrite !lookup_insert_ne; [reflexivity | ..];
      intros <-; apply Hk; set_solver.
Qed.

Ltac run_M :=
  unfold ensure_dirs, save_queue, save_state, write_score, run_shell, load_state,
    load_queue, append_escalation, lift, mbind, M_bind, mret, M_ret in *;
  cbn beta iota in *.

Lemma execute_task_executes e queue st w r queue' st' w' :
  execute_task e queue st w = (Ok (r, queue', st'), w') →
  executes e queue st w r queue' st' w'.
Proof.
  unfold execute_task.
  destruct (list_find is_todo queue) as [[i t] |] eqn:Hfind.
  2: { run_M. intros [= <- <- <- <-]. constructor. now left. }
  destruct (task_nonempty t) eqn:Hne; cbn [negb].
  2: { run_M. intros [= <- <- <- <-]. constructor. right. eauto. }
  destruct (String.eqb_spec (default "normal" (task_kind t)) "major") as [Hk | Hk].
  { unfold write_escalation. run_M.
    destruct (task_id t) as [id |] eqn:Hid; cbn; [| discriminate].
    destruct (task_title t) as [title |] eqn:Htitle; cbn; [| discriminate].
    destruct (escalation_file w) as [text |] eqn:Hesc; cbn;
      intros [= <- <- <- <-];
      pose proof (exec_major e queue st w i t id title Hfind Hk Hid Htitle) as Hx;
      now rewrite Hesc in Hx. }
  destruct (task_command t) as [cmd |] eqn:Hcmd.
  2: { run_M. intros [= <- <- <- <-]. apply exec_blocked; auto. }
  destruct cmd as [| c cmd].
  { run_M. intros [= <- <- <- <-]. apply exec_blocked; auto. }
  run_M.
  destruct (Z.eqb_spec (shell e (String c cmd)).1 0) as [Hrc | Hrc]; cbn [negb].
  2: { intros [= <- <- <- <-]. now apply exec_failed. }
  cbn [task_boost set_outcome task_id].
  destruct (add_boosts _ _) as [boost |] eqn:Hboost; cbn; [| discriminate].
  destruct (task_id t) as [id |] eqn:Hid; cbn; [| discriminate].
  intros [= <- <- <- <-]. now apply exec_done.
Qed.

Lemma major_nonempty (t : task) : task_kind t = Some "major" → task_nonempty t = true.
Proof.
  intros Hk. unfold task_nonempty. rewrite Hk.
  destruct (task_id t), (task_title t); reflexivity.
Qed.

Lemma command_nonempty (t : task) (cmd : string) :
  task_command t = Some cmd → task_nonempty t = true.
Proof.
  intros Hc. unfold task_nonempty. rewrite Hc.
  destruct (task_id t), (task_title t), (task_kind t), (task_status t); reflexivity.
Qed.

Lemma kind_major (t : task) :
  default "normal" (task_kind t) = "major" → task_kind t = Some "major".
Proof. destruct (task_kind t); cbn; [now intros -> | discriminate]. Qed.

(** The relation is exactly the executor's normal returns. *)
Lemma executes_execute_task e queue st w r queue' st' w' :
  executes e queue st w r queue' st' w' →
  execute_task e queue st w = (Ok (r, queue', st'), w').
Proof.
  intros Hx. unfold execute_task.
  destruct Hx as [[Hfind | (i & t & Hfind & Hempty)]
                 | i t id title Hfind Hkind Hid Htitle
                 | i t Hfind Hne Hkind Hcmd
                 | i t cmd Hfind Hkind Hcmd Hcmd' Hrc
                 | i t cmd boost id Hfind Hkind Hcmd Hcmd' Hrc Hboost Hid];
    rewrite Hfind.
  - reflexivity.
  - now rewrite Hempty.
  - apply kind_major in Hkind.
    rewrite (major_nonempty t Hkind), Hkind. cbn.
    unfold write_escalation. run_M. rewrite Hid, Htitle. cbn.
    destruct (escalation_file w); reflexivity.
  - rewrite Hne. cbn [negb].
    destruct (String.eqb_spec (default "normal" (task_kind t)) "major");
      [contradiction |].
    destruct Hcmd as [-> | ->]; reflexivity.
  - rewrite (command_nonempty t cmd Hcmd). cbn [negb].
    destruct (String.eqb_spec (default "normal" (task_kind t)) "major");
      [contradiction |].
    rewrite Hcmd. destruct cmd as [| c cmd]; [contradiction |]. run_M.
    destruct (Z.eqb_spec (shell e (String c cmd)).1 0); [contradiction |].
    reflexivity.
  - rewrite (command_nonempty t cmd Hcmd). cbn [negb].
    destruct (String.eqb_spec (default "normal" (task_kind t)) "major");
      [contradiction |].
    rewrite Hcmd. destruct cmd as [| c cmd]; [contradiction |]. run_M.
    destruct (Z.eqb_spec (shell e (String c cmd)).1 0); [| contradiction].
    cbn [negb task_boost set_outcome task_id].
    rewrite Hboost. cbn. rewrite Hid. reflexivity.
Qed.

(** When the executor raises, nothing was persisted to the queue. *)
Lemma execute_task_raise e queue st w ex w' :
  execute_task e queue st w = (Raise ex, w') → queue_file w' = queue_file w.
Proof.
  unfold execute_task.
  destruct (list_find is_todo queue) as [[i t] |]; [| discriminate].
  destruct (task_nonempty t); cbn [negb]; [| discriminate].
  destruct (String.eqb _ "major").
  { unfold write_escalation. run_M.
    destruct (task_id t); cbn; [| now intros [= _ <-]].
    destruct (task_title t); cbn; [| now intros [= _ <-]].
    destruct (escalation_file w); discriminate. }
  destruct (task_command t) as [[| c cmd] |]; try discriminate.
  run_M. destruct (_ =? 0); cbn [negb]; [| discriminate].
  cbn [task_boost set_outcome task_id].
  destruct (add_boosts _ _); cbn; [| now intros [= _ <-]].
  destruct (task_id t); cbn; [discriminate | now intros [= _ <-]].
Qed.

Lemma executes_frame e queue st w r queue' st' w' :
  executes e queue st w r queue' st' w' →
  ∃ i, (queue' = queue ∨ ∃ t', queue' = <[i := t']> queue)
       ∧ (queue_file w' = queue_file w ∨ queue_file w' = Some queue').
Proof.
  intros Hx. destruct Hx; try (exists i); try (exists 0%nat);
    split; eauto.
Qed.

(** C5. One invocation of the executor leaves every task but one as it was,
    whatever its position, so at most one task moves away from [todo]; the
    queue document is either untouched or replaced by the returned queue,
    and it is untouched when the invocation raises. *)
Theorem C5_one_task_per_invocation (e : env) (queue : list task) (st : state)
    (w : world) :
  match execute_task e queue st w with
  | (Ok (_, queue', _), w') =>
      length queue' = length queue
      ∧ (∃ i, ∀ j, j ≠ i → queue' !! j = queue !! j)
      ∧ (∀ j1 j2, left_todo queue queue' j1 → left_todo queue queue' j2 → j1 = j2)
      ∧ (queue_file w' = queue_file w ∨ queue_file w' = Some queue')
  | (Raise _, w') => queue_file w' = queue_file w
  end.
Proof.
  destruct (execute_task e queue st w) as [[[[r queue'] st'] | ex] w'] eqn:Hrun.
  2: { now apply execute_task_raise in Hrun. }
  apply execute_task_executes, executes_frame in Hrun as (i & Hq & Hfile).
  assert (Hother : ∀ j, j ≠ i → queue' !! j = queue !! j).
  { intros j Hj. destruct Hq as [-> | [t' ->]]; [reflexivity |].
    now apply list_lookup_insert_ne. }
  assert (Hone : ∀ j, left_todo queue queue' j → j = i).
  { intros j (t & t' & Ht & Ht' & Htodo & Hnot).
    destruct (decide (j = i)) as [-> | Hne]; [reflexivity |].
    rewrite (Hother j Hne), Ht in Ht'. injection Ht' as <-. contradiction. }
  repeat split.
  - destruct Hq as [-> | [t' ->]]; [reflexivity | apply length_insert].
  - eauto.
  - intros j1 j2 H1 H2. rewrite (Hone j1 H1), (Hone j2 H2). reflexivity.
  - exact Hfile.
Qed.

(** C9. When the first [todo] task has kind [major], the executor runs no
    command, leaves the queue (in memory and on disk) and the state as they
    were, so the task is still [todo], appends the one escalation line built
    from the timestamp, the task's id and title and the [kind=major] marker
    after the text already in the log, and returns [major]. *)
Theorem C9_major_task_escalates (e : env) (queue : list task) (st : state)
    (w : world) (i : nat) (t : task) (id title : string) :
  list_find is_todo queue = Some (i, t) →
  task_kind t = Some "major" →
  task_id t = Some id →
  task_title t = Some title →
  ∃ w',
    execute_task e queue st w = (Ok ("major", queue, st), w')
    ∧ shell_log w' = shell_log w
    ∧ queue_file w' = queue_file w
    ∧ state_file w' = state_file w
    ∧ (queue !! i = Some t ∧ is_todo t)
    ∧ escalation_file w'
      = Some (match escalation_file w with
              | Some text => text +:+ escalation_line e id title
              | None => "# Escalations" +:+ nl +:+ nl +:+ escalation_line e id title
              end)
    ∧ escalation_line e id title
      = "- " +:+ stamp e +:+ " | " +:+ id +:+ " | " +:+ title
        +:+ " | kind=major | action required" +:+ nl.
Proof.
  intros Hfind Hkind Hid Htitle.
  unfold execute_task. rewrite Hfind, (major_nonempty t Hkind), Hkind. cbn.
  unfold write_escalation. run_M. rewrite Hid, Htitle. cbn.
  apply list_find_Some in Hfind as (Hi & Htodo & _).
  destruct (escalation_file w) as [text |] eqn:Hesc;
    eexists; repeat split; try reflexivity; assumption.
Qed.

Lemma C9_major_task_escalates_witness :
  ∃ w',
    execute_task quiet_env [major_task] DEFAULT_STATE
      (set_escalation_file (Some "# Escalations") empty_world)
    = (Ok ("major", [major_task], DEFAULT_STATE), w')
    ∧ shell_log w' = []
    ∧ escalation_file w'
      = Some ("# Escalations" +:+ escalation_line quiet_env "t9" "Rewrite the renderer").
Proof.
  destruct (C9_major_task_escalates quiet_env [major_task] DEFAULT_STATE
              (set_escalation_file (Some "# Escalations") empty_world)
              0 major_task "t9" "Rewrite the renderer"
              eq_refl eq_refl eq_refl eq_refl)
    as (w' & Hrun & Hlog & _ & _ & _ & Hesc & _).
  exists w'. repeat split; assumption.
Defined.

(** ** Score engine *)

Lemma build_scores_unfold (now : Z) (snap : snapshot) (st : state) :
  build_scores now snap st
  = (rows ← unboosted_rows now snap;
     scores ← apply_boosts rows st;
     fv ← getitem "fileview" (scores !! "fileview");
     Ok (<["fileview" := set_total (product fv + ai_fit fv + reliability fv
                                    + ecosystem fv + momentum fv) fv]> scores)).
Proof.
  unfold build_scores, unboosted_rows.
  f_equal. apply foldM_ext. intros acc [key b].
  unfold insert_resolved, entity_row, max_stars_of.
  destruct (ecosystem_score _ _); cbn; [| reflexivity].
  destruct (momentum_score _ _); reflexivity.
Qed.

Lemma apply_boosts_eq (rows : gmap string row) (st : state) (r : row) :
  rows !! "fileview" = Some r →
  apply_boosts rows st = Ok (<["fileview" := boosted (fileview_boost st) r]> rows).
Proof.
  intros Hr. unfold apply_boosts, DIMS. cbn [foldM].
  rewrite Hr. cbn.
  repeat (rewrite lookup_insert_eq; cbn).
  rewrite !insert_insert_eq. reflexivity.
Qed.

Lemma BASE_SCORES_keys_NoDup : NoDup BASE_SCORES.*1.
Proof. apply (bool_decide_unpack _). vm_compute. exact I. Qed.

Lemma unboosted_rows_lookup (now : Z) (snap : snapshot) (rows : gmap string row)
    (key : string) (b : base) :
  unboosted_rows now snap = Ok rows → (key, b) ∈ BASE_SCORES →
  ∃ r, entity_row now snap key b = Ok r ∧ rows !! key = Some r.
Proof.
  intros Hrows Hin.
  exact (insert_loop_lookup _ _ _ _ _ _ BASE_SCORES_keys_NoDup Hrows Hin).
Qed.

Lemma unboosted_rows_other (now : Z) (snap : snapshot) (rows : gmap string row)
    (key : string) :
  unboosted_rows now snap = Ok rows → key ∉ BASE_SCORES.*1 → rows !! key = None.
Proof.
  intros Hrows Hk.
  now rewrite (insert_loop_other _ _ _ _ _ Hrows Hk).
Qed.

(** What [build_scores] returns, in closed form. *)
Lemma build_scores_eq (now : Z) (snap : snapshot) (st : state) :
  build_scores now snap st
  = match unboosted_rows now snap with
    | Ok rows =>
        match rows !! "fileview" with
        | Some r =>
            let fv := boosted (fileview_boost st) r in
            Ok (<["fileview" := set_total (product fv + ai_fit fv + reliability fv
                                           + ecosystem fv + momentum fv) fv]> rows)
        | None => Raise (KeyError "fileview")
        end
    | Raise ex => Raise ex
    end.
Proof.
  rewrite build_scores_unfold.
  destruct (unboosted_rows now snap) as [rows | ex] eqn:Hrows;
    cbn -[apply_boosts]; [| reflexivity].
  destruct (unboosted_rows_lookup now snap rows "fileview"
              {| base_product := 22; base_ai_fit := 18; base_reliability := 10 |}
              Hrows ltac:(left)) as (r & _ & Hr).
  rewrite Hr, (apply_boosts_eq _ _ _ Hr). cbn.
  rewrite lookup_insert_eq. cbn. now rewrite insert_insert_eq.
Qed.

Lemma boosted_empty (r : row) :
  boosted ∅ r
  = {| product := product r + 0; ai_fit := ai_fit r + 0;
       reliability := reliability r + 0; ecosystem := ecosystem r + 0;
       momentum := momentum r + 0; total := total r |}.
Proof. reflexivity. Qed.

(** C10. The boost is added to all five sub-scores of [fileview]: each field
    is its value under an empty boost plus the boost's offset for that
    dimension, and the total is the sum of the five boosted fields; so the
    reported ecosystem field can exceed 15 and the momentum field 10. *)
Theorem C10_boost_applied_to_all_dimensions :
  (∀ (now : Z) (snap : snapshot) (st : state),
     match build_scores now snap (set_boost ∅ st), build_scores now snap st with
     | Ok scores0, Ok scores =>
         ∃ fv0 fv,
           scores0 !! "fileview" = Some fv0
           ∧ scores !! "fileview" = Some fv
           ∧ product fv = product fv0 + default 0 (fileview_boost st !! "product")
           ∧ ai_fit fv = ai_fit fv0 + default 0 (fileview_boost st !! "ai_fit")
           ∧ reliability fv
             = reliability fv0 + default 0 (fileview_boost st !! "reliability")
           ∧ ecosystem fv = ecosystem fv0 + default 0 (fileview_boost st !! "ecosystem")
           ∧ momentum fv = momentum fv0 + default 0 (fileview_boost st !! "momentum")
           ∧ total fv = product fv + ai_fit fv + reliability fv + ecosystem fv
                        + momentum fv
     | Raise ex0, Raise ex => ex0 = ex
     | _, _ => False
     end)
  ∧ (∃ scores fv,
       build_scores 1705314600 bare_snapshot generous_state = Ok scores
       ∧ scores !! "fileview" = Some fv
       ∧ 15 < ecosystem fv
       ∧ 10 < momentum fv).
Proof.
  split.
  - intros now snap st. rewrite !build_scores_eq. cbn [fileview_boost set_boost].
    destruct (unboosted_rows now snap) as [rows | ex]; [| reflexivity].
    destruct (rows !! "fileview") as [r |]; [| reflexivity].
    cbn zeta. do 2 eexists. rewrite !lookup_insert_eq.
    split; [reflexivity |]. split; [reflexivity |].
    rewrite boosted_empty. cbn. repeat split; lia.
  - do 2 eexists. split; [vm_compute; reflexivity |].
    split; [vm_compute; reflexivity |].
    cbn. lia.
Qed.

(** Entities other than [fileview] are never boosted. *)
Lemma build_scores_others (now : Z) (snap : snapshot) (st : state)
    (scores rows : gmap string row) (key : string) :
  build_scores now snap st = Ok scores → unboosted_rows now snap = Ok rows →
  key ≠ "fileview" → scores !! key = rows !! key.
Proof.
  rewrite build_scores_eq. intros Hs Hrows Hkey. rewrite Hrows in Hs.
  destruct (rows !! "fileview"); [| discriminate].
  injection Hs as <-. now apply lookup_insert_ne.
Qed.

(** C4, as stated, fails: one snapshot (fetched and last pushed at
    2024-01-15T10:30:00Z) and one state, scored at the fetch time and again
    forty days later, give momentum 10 and then 2 for [fileview]. *)
Lemma C4_counterexample :
  ∃ scores1 scores2,
    build_scores 1705314600 pushed_snapshot DEFAULT_STATE = Ok scores1
    ∧ build_scores (1705314600 + 40 * 86400) pushed_snapshot DEFAULT_STATE = Ok scores2
    ∧ momentum <$> scores1 !! "fileview" = Some 10
    ∧ momentum <$> scores2 !! "fileview" = Some 2
    ∧ scores1 ≠ scores2.
Proof.
  do 2 eexists.
  split; [vm_compute; reflexivity |].
  split; [vm_compute; reflexivity |].
  split; [vm_compute; reflexivity |].
  split; [vm_compute; reflexivity |].
  intros Heq.
  apply (f_equal (λ s : gmap string row, momentum <$> s !! "fileview")) in Heq.
  vm_compute in Heq. discriminate.
Qed.

(** C4, amended. [build_scores] is a function of the snapshot's [repos], the
    state's boost and the clock reading at evaluation time: under the same
    clock reading it returns the same result, whatever [updated_at] and the
    rest of the state are; and every entity's momentum field is
    [momentum_score] of its [pushed_at] measured against that clock reading
    (plus the momentum boost, for [fileview]). *)
Theorem C4_scores_depend_on_clock (now : Z) (snap1 snap2 : snapshot)
    (st1 st2 : state) :
  repos snap1 = repos snap2 →
  fileview_boost st1 = fileview_boost st2 →
  build_scores now snap1 st1 = build_scores now snap2 st2
  ∧ ∀ scores,
      build_scores now snap1 st1 = Ok scores →
      Forall (λ kb : string * base,
                ∃ r m,
                  scores !! kb.1 = Some r
                  ∧ momentum_score now (repos snap1 !! kb.1 ≫= pushed_at) = Ok m
                  ∧ momentum r
                    = m + (if String.eqb kb.1 "fileview"
                           then default 0 (fileview_boost st1 !! "momentum") else 0))
             BASE_SCORES.
Proof.
  intros Hrepos Hboost. split.
  - rewrite !build_scores_eq, Hboost.
    unfold unboosted_rows.
    rewrite (foldM_ext (insert_resolved (entity_row now snap1))
                       (insert_resolved (entity_row now snap2))); [reflexivity |].
    intros acc [key b]. unfold insert_resolved, entity_row, max_stars_of.
    now rewrite Hrepos.
  - intros scores Hs. apply Forall_forall. intros [key b] Hin. cbn [fst].
    pose proof Hs as Hs'. rewrite build_scores_eq in Hs'.
    destruct (unboosted_rows now snap1) as [rows | ex] eqn:Hrows; [| discriminate].
    destruct (unboosted_rows_lookup now snap1 rows key b Hrows Hin) as (r & Hrow & Hr).
    unfold entity_row in Hrow.
    destruct (ecosystem_score _ _) as [eco | ex]; cbn in Hrow; [| discriminate].
    destruct (momentum_score _ _) as [mom | ex]; cbn in Hrow; [| discriminate].
    injection Hrow as <-.
    destruct (String.eqb_spec key "fileview") as [-> | Hne].
    + rewrite Hr in Hs'. injection Hs' as <-.
      rewrite lookup_insert_eq. do 2 eexists.
      split; [reflexivity |]. split; reflexivity.
    + rewrite (build_scores_others _ _ _ _ _ key Hs Hrows Hne), Hr.
      do 2 eexists. split; [reflexivity |]. split; [reflexivity |]. cbn. lia.
Qed.

Lemma C4_scores_depend_on_clock_witness :
  build_scores 1705314600 pushed_snapshot DEFAULT_STATE
  = build_scores 1705314600
      {| updated_at := "2024-03-01T00:00:00Z"; repos := repos pushed_snapshot |}
      (append_completed "t1" DEFAULT_STATE).
Proof.
  apply (C4_scores_depend_on_clock 1705314600 pushed_snapshot _
           DEFAULT_STATE (append_completed "t1" DEFAULT_STATE));
    reflexivity.
Defined.

(** ** Cycle controller *)

Lemma executes_state e queue st w r queue' st' w' :
  executes e queue st w r queue' st' w' →
  no_delta_cycles st' = no_delta_cycles st
  ∧ last_total st' = last_total st
  ∧ state_file w' = state_file w
  ∧ score_file w' = score_file w
  ∧ snapshot_file w' = snapshot_file w.
Proof. intros Hx. destruct Hx; repeat split; reflexivity. Qed.

(** One cycle that returns a decision code, step by step. *)
Lemma run_cycle_inv (e : env) (no_commit no_push : bool) (w w' : world) (code : Z) :
  run_cycle e no_commit no_push w = (Ok code, w') →
  ∃ snap r queue' st1 w2 scores fv,
    branch e = "develop"
    ∧ fetch_market_snapshot e w = (Ok snap, set_snapshot_file (Some snap) w)
    ∧ executes e (default [] (queue_file w)) (loaded_state w)
        (set_snapshot_file (Some snap) w) r queue' st1 w2
    ∧ build_scores (now e) snap st1 = Ok scores
    ∧ scores !! "fileview" = Some fv
    ∧ let before := default 0 (last_total (loaded_state w)) in
      let delta := if before =? 0 then 0 else total fv - before in
      let ndc := if String.eqb r "done"
                 then (if delta =? 0 then no_delta_cycles st1 + 1 else 0)
                 else no_delta_cycles st1 in
      w' = set_state_file (Some (end_of_cycle ndc (total fv) r e st1))
             (set_score_file (Some (render_score_md snap scores delta)) w2)
      ∧ code = (if String.eqb r "major" then 10 else if 2 <=? ndc then 11 else 0).
Proof.
  unfold run_cycle, branch_guard, maybe_commit_push, ensure_dirs.
  destruct (String.eqb_spec (branch e) "develop") as [Hb | Hb];
    run_M; [| discriminate].
  destruct (fetch_market_snapshot_returns e w) as (snap & -> & _).
  destruct (execute_task e _ _ _) as [[[[r queue'] st1] | ex] w2] eqn:Hexec;
    [| discriminate].
  apply execute_task_executes in Hexec.
  destruct (build_scores (now e) snap st1) as [scores | ex] eqn:Hscores;
    [| discriminate].
  destruct (scores !! "fileview") as [fv |] eqn:Hfv; cbn [getitem]; [| discriminate].
  intros Hrun.
  exists snap, r, queue', st1, w2, scores, fv.
  repeat (split; [assumption || reflexivity |]).
  cbn zeta.
  destruct no_commit.
  - destruct (String.eqb r "major"); [| destruct (2 <=? _)];
      injection Hrun as <- <-; split; reflexivity.
  - destruct (git e false no_push); [| discriminate].
    destruct (String.eqb r "major"); [| destruct (2 <=? _)];
      injection Hrun as <- <-; split; reflexivity.
Qed.

(** The outcome, delta, counter and decision of a cycle, read off the
    documents it leaves. *)
Lemma run_cycle_summary (e : env) (no_commit no_push : bool) (w w' : world)
    (code : Z) :
  run_cycle e no_commit no_push w = (Ok code, w') →
  ∃ r delta after,
    reported_outcome w' = Some r
    ∧ reported_delta w' = Some delta
    ∧ persisted_total w' = Some after
    ∧ delta = (if default 0 (persisted_total w) =? 0 then 0
               else after - default 0 (persisted_total w))
    ∧ counter w' = (if String.eqb r "done"
                    then (if delta =? 0 then counter w + 1 else 0)
                    else counter w)
    ∧ code = (if String.eqb r "major" then 10
              else if 2 <=? counter w' then 11 else 0).
Proof.
  intros Hrun.
  apply run_cycle_inv in Hrun
    as (snap & r & queue' & st1 & w2 & scores & fv & _ & _ & Hx & _ & _ & Hw & Hcode).
  cbn zeta in Hw, Hcode.
  apply executes_state in Hx as (Hndc & _ & _ & _ & _).
  rewrite Hndc in Hw, Hcode.
  assert (Hbefore : default 0 (persisted_total w) = default 0 (last_total (loaded_state w))).
  { unfold persisted_total, loaded_state. destruct (state_file w); reflexivity. }
  exists r, (if default 0 (persisted_total w) =? 0 then 0
             else total fv - default 0 (persisted_total w)), (total fv).
  rewrite Hbefore. subst w'. repeat split; assumption.
Qed.

Lemma fmap_add_0 (o : option Z) : (λ b, b + 0) <$> o = o.
Proof. destruct o as [b |]; cbn; [f_equal; lia | reflexivity]. Qed.

Lemma executes_boost e queue st w r queue' st' w' (k : string) :
  executes e queue st w r queue' st' w' → k ∈ DIMS →
  fileview_boost st' !! k
  = (λ b, b + (if String.eqb r "done"
               then default 0 (selected_boost queue !! k) else 0))
    <$> fileview_boost st !! k.
Proof.
  intros Hx Hk.
  destruct Hx as [| | | | i t cmd boost id Hfind _ _ _ _ Hboost _];
    cbn [String.eqb Ascii.eqb Bool.eqb]; try (now rewrite fmap_add_0).
  cbn [append_completed set_boost fileview_boost].
  rewrite (add_boosts_lookup _ _ _ k Hboost), bool_decide_eq_true_2 by exact Hk.
  unfold selected_boost. rewrite Hfind. reflexivity.
Qed.

(** C3, as stated, fails: a task that declares [product: -1] and succeeds
    takes the product boost from 0 to -1. *)
Lemma C3_counterexample :
  ∃ w',
    run_cycle quiet_env true true
      (with_queue [normal_task "t1" {[ "product" := -1 ]}]) = (Ok 0, w')
    ∧ fileview_boost
        (loaded_state (with_queue [normal_task "t1" {[ "product" := -1 ]}]))
      !! "product" = Some 0
    ∧ fileview_boost (loaded_state w') !! "product" = Some (-1).
Proof.
  eexists. split; [vm_compute; reflexivity |].
  split; vm_compute; reflexivity.
Qed.

(** C3, amended. Over a cycle each boost dimension grows by exactly the
    increment the completed task declares for it (0 when the key is missing
    or when the cycle's outcome is not [done]); so it does not decrease
    whenever that increment is non-negative. *)
Theorem C3_boost_accumulates (e : env) (no_commit no_push : bool) (w w' : world)
    (code : Z) :
  run_cycle e no_commit no_push w = (Ok code, w') →
  ∃ r,
    reported_outcome w' = Some r
    ∧ Forall (λ k,
                let inc := if String.eqb r "done"
                           then default 0
                                  (selected_boost (default [] (queue_file w)) !! k)
                           else 0 in
                fileview_boost (loaded_state w') !! k
                = (λ b, b + inc) <$> fileview_boost (loaded_state w) !! k
                ∧ (0 <= inc →
                   ∀ b b', fileview_boost (loaded_state w) !! k = Some b →
                           fileview_boost (loaded_state w') !! k = Some b' →
                           b <= b'))
             DIMS.
Proof.
  intros Hrun.
  apply run_cycle_inv in Hrun
    as (snap & r & queue' & st1 & w2 & scores & fv & _ & _ & Hx & _ & _ & Hw & _).
  cbn zeta in Hw. exists r. subst w'. split; [reflexivity |].
  apply Forall_forall. intros k Hk. cbn zeta.
  assert (Hstep := executes_boost _ _ _ _ _ _ _ _ k Hx Hk).
  split; [exact Hstep |].
  intros Hinc b b' Hb Hb'.
  change (fileview_boost st1 !! k = Some b') in Hb'.
  rewrite Hstep, Hb in Hb'. cbn in Hb'. injection Hb' as <-. lia.
Qed.

Lemma C3_boost_accumulates_witness :
  ∃ w',
    run_cycle quiet_env true true
      (with_queue [normal_task "t1" {[ "product" := 2 ]}]) = (Ok 0, w')
    ∧ fileview_boost (loaded_state w') !! "product" = Some 2.
Proof.
  exists (run_cycle quiet_env true true
            (with_queue [normal_task "t1" {[ "product" := 2 ]}])).2.
  assert (Hrun : run_cycle quiet_env true true
                   (with_queue [normal_task "t1" {[ "product" := 2 ]}])
                 = (Ok 0, (run_cycle quiet_env true true
                             (with_queue [normal_task "t1" {[ "product" := 2 ]}])).2))
    by (vm_compute; reflexivity).
  split; [exact Hrun |].
  destruct (C3_boost_accumulates _ _ _ _ _ _ Hrun) as (r & Hr & Hall).
  apply Forall_forall with (x := "product") in Hall; [| left].
  destruct Hall as [Hstep _]. rewrite Hstep.
  vm_compute in Hr. injection Hr as <-. vm_compute. reflexivity.
Defined.

(** C1, as stated, fails: two cycles in a row report [done] with delta 0,
    yet the third, which meets a major task, decides escalate (10) rather
    than pivot (11); and that third cycle, whose outcome is not [done],
    leaves the counter at 2 instead of resetting it. *)
Lemma C1_counterexample :
  ∃ w1 w2 w3,
    run_cycle quiet_env true true stalled_world = (Ok 0, w1)
    ∧ run_cycle quiet_env true true w1 = (Ok 11, w2)
    ∧ run_cycle quiet_env true true w2 = (Ok 10, w3)
    ∧ (reported_outcome w1 = Some "done" ∧ reported_delta w1 = Some 0)
    ∧ (reported_outcome w2 = Some "done" ∧ reported_delta w2 = Some 0)
    ∧ (reported_outcome w3 = Some "major" ∧ reported_delta w3 = Some 0)
    ∧ counter w2 = 2
    ∧ counter w3 = 2.
Proof.
  do 3 eexists.
  split; [vm_compute; reflexivity |].
  split; [vm_compute; reflexivity |].
  split; [vm_compute; reflexivity |].
  repeat split; vm_compute; reflexivity.
Qed.

(** C1, amended. If two consecutive cycles both report [done] with delta 0,
    the counter being non-negative before them, then the second already
    decides pivot and the counter has grown by 2. The cycle after them
    decides escalate when its outcome is [major], continue when it is [done]
    with a non-zero delta, pivot otherwise; it resets the counter to 0
    exactly in the [done], non-zero delta case, adds 1 when [done] with
    delta 0, and leaves it unchanged when the outcome is not [done]. Other
    documents may be edited between cycles; the state document is not. *)
Theorem C1_stagnation_counter (e1 e2 : env) (f1 g1 f2 g2 : bool)
    (w0 w1 w1' w2 : world) (c1 c2 : Z) :
  0 <= counter w0 →
  run_cycle e1 f1 g1 w0 = (Ok c1, w1) →
  state_file w1' = state_file w1 →
  run_cycle e2 f2 g2 w1' = (Ok c2, w2) →
  reported_outcome w1 = Some "done" → reported_delta w1 = Some 0 →
  reported_outcome w2 = Some "done" → reported_delta w2 = Some 0 →
  c2 = 11
  ∧ counter w2 = counter w0 + 2
  ∧ ∀ (e3 : env) (f3 g3 : bool) (w2' w3 : world) (c3 : Z),
      state_file w2' = state_file w2 →
      run_cycle e3 f3 g3 w2' = (Ok c3, w3) →
      ∃ r d,
        reported_outcome w3 = Some r
        ∧ reported_delta w3 = Some d
        ∧ counter w3 = (if String.eqb r "done"
                        then (if d =? 0 then counter w2 + 1 else 0)
                        else counter w2)
        ∧ c3 = (if String.eqb r "major" then 10
                else if String.eqb r "done" && negb (d =? 0) then 0
                else 11).
Proof.
  intros H0 Hrun1 Hsame1 Hrun2 Hr1 Hd1 Hr2 Hd2.
  apply run_cycle_summary in Hrun1 as (r1 & d1 & a1 & Hr1' & Hd1' & _ & _ & Hc1 & _).
  apply run_cycle_summary in Hrun2 as (r2 & d2 & a2 & Hr2' & Hd2' & _ & _ & Hc2 & Hk2).
  rewrite Hr1 in Hr1'. injection Hr1' as <-.
  rewrite Hd1 in Hd1'. injection Hd1' as <-.
  rewrite Hr2 in Hr2'. injection Hr2' as <-.
  rewrite Hd2 in Hd2'. injection Hd2' as <-.
  cbn in Hc1, Hc2, Hk2.
  assert (Hw1' : counter w1' = counter w1).
  { unfold counter, loaded_state. now rewrite Hsame1. }
  rewrite Hw1', Hc1 in Hc2.
  split; [| split; [lia |]].
  - subst c2. destruct (Z.leb_spec 2 (counter w2)); [reflexivity | lia].
  - intros e3 f3 g3 w2' w3 c3 Hsame2 Hrun3.
    apply run_cycle_summary in Hrun3
      as (r3 & d3 & a3 & Hr3 & Hd3 & _ & _ & Hc3 & Hk3).
    assert (Hw2' : counter w2' = counter w2).
    { unfold counter, loaded_state. now rewrite Hsame2. }
    rewrite Hw2' in Hc3.
    exists r3, d3. repeat (split; [assumption |]).
    subst c3. rewrite Hc3.
    destruct (String.eqb r3 "major"); [reflexivity |].
    destruct (String.eqb r3 "done"), (d3 =? 0); cbn [andb negb];
      try reflexivity;
      destruct (Z.leb_spec 2 (counter w2)); try reflexivity; try lia;
      destruct (Z.leb_spec 2 (counter w2 + 1)); try reflexivity; lia.
Qed.

Lemma C1_stagnation_counter_witness :
  counter (run_cycle quiet_env true true
             (run_cycle quiet_env true true stalled_world).2).2
  = counter stalled_world + 2.
Proof.
  refine (proj1 (proj2
    (C1_stagnation_counter quiet_env quiet_env true true true true
       stalled_world
       (run_cycle quiet_env true true stalled_world).2
       (run_cycle quiet_env true true stalled_world).2
       (run_cycle quiet_env true true
          (run_cycle quiet_env true true stalled_world).2).2
       0 11 _ _ _ _ _ _ _ _)));
    vm_compute; (reflexivity || discriminate).
Defined.

(** ** Score delta *)

(** C2 at a total of 0. The first cycle persists [last_total = 0]; the
    second raises the total to 3, so [after_total - before_total] is 3 with
    a prior total on record, yet the cycle reports delta 0 and counts a
    second no-delta cycle, deciding pivot. *)
Theorem C2_delta_lost_at_zero_total :
  ∃ w1 w2,
    run_cycle quiet_env true true zeroing_world = (Ok 0, w1)
    ∧ persisted_total w1 = Some 0
    ∧ run_cycle quiet_env true true w1 = (Ok 11, w2)
    ∧ persisted_total w2 = Some 3
    ∧ reported_delta w2 = Some 0
    ∧ counter w2 = 2.
Proof.
  do 2 eexists.
  split; [vm_compute; reflexivity |].
  split; [vm_compute; reflexivity |].
  split; [vm_compute; reflexivity |].
  repeat split; vm_compute; reflexivity.
Qed.

(** The delta a cycle reports, for every prior state: the difference of the
    totals when the persisted total is a non-zero integer, and 0 both when
    there is none and when it is 0. *)
Lemma run_cycle_delta (e : env) (no_commit no_push : bool) (w w' : world)
    (code : Z) :
  run_cycle e no_commit no_push w = (Ok code, w') →
  ∃ after,
    persisted_total w' = Some after
    ∧ reported_delta w'
      = Some (match last_total (loaded_state w) with
              | None => 0
              | Some before => if before =? 0 then 0 else after - before
              end).
Proof.
  intros Hrun.
  apply run_cycle_inv in Hrun
    as (snap & r & queue' & st1 & w2 & scores & fv & _ & _ & _ & _ & _ & Hw & _).
  cbn zeta in Hw. exists (total fv). subst w'.
  split; [reflexivity |].
  cbn. destruct (last_total (loaded_state w)) as [b |]; reflexivity.
Qed.

(** * Further properties *)

(** ** Sub-scores: extremes, domain and the passage of time *)

Lemma round_IZR (n : Z) : round (IZR n) = n.
Proof.
  pose proof (round_near (IZR n)) as [Hlo Hhi].
  assert (H1 : n - 1 < round (IZR n)).
  { apply lt_IZR. rewrite minus_IZR. lra. }
  assert (H2 : round (IZR n) < n + 1).
  { apply lt_IZR. rewrite plus_IZR. lra. }
  lia.
Qed.

(** Whatever [ecosystem_score] returns is within the clamp. *)
Lemma ecosystem_score_clamped (stars max_stars v : Z) :
  ecosystem_score stars max_stars = Ok v → 1 <= v <= 15.
Proof.
  unfold ecosystem_score.
  destruct (max_stars <=? 0); [intros [= <-]; lia |].
  destruct (log10 (stars + 1)); cbn; [| discriminate].
  destruct (log10 (max_stars + 1)); cbn; [| discriminate].
  destruct (truediv _ _); cbn; [| discriminate].
  intros [= <-]. lia.
Qed.

Lemma scaled_ratio_top (stars max_stars : Z) :
  1 <= max_stars → max_stars <= stars →
  15 <= round (ln (IZR (stars + 1)) / ln 10
               / (ln (IZR (max_stars + 1)) / ln 10) * 15).
Proof.
  intros Hm Hs.
  pose proof (log10_pos (max_stars + 1) ltac:(lia)) as Hden.
  assert (Hnum : (ln (IZR (max_stars + 1)) / ln 10
                  <= ln (IZR (stars + 1)) / ln 10)%R).
  { apply Rmult_le_compat_r.
    - left. apply Rinv_0_lt_compat, ln_gt_0. lra.
    - apply ln_le; [apply (IZR_lt 0); lia | apply IZR_le; lia]. }
  assert (Hratio : (15 <= ln (IZR (stars + 1)) / ln 10
                         / (ln (IZR (max_stars + 1)) / ln 10) * 15)%R).
  { assert (H1 : (1 <= ln (IZR (stars + 1)) / ln 10
                       / (ln (IZR (max_stars + 1)) / ln 10))%R).
    { apply (Rmult_le_reg_r (ln (IZR (max_stars + 1)) / ln 10)); [exact Hden |].
      unfold Rdiv at 2. rewrite Rmult_assoc, Rinv_l by lra. lra. }
    lra. }
  apply round_mono in Hratio. now rewrite (round_IZR 15) in Hratio.
Qed.

(** The two ends of the scale: a repository without stars scores 1 whatever
    the leader has, and one with at least as many stars as [max_stars]
    (the leader itself, in [build_scores]) scores 15. *)
Theorem ecosystem_score_extremes (stars max_stars : Z) :
  1 <= max_stars → max_stars <= stars →
  ecosystem_score 0 max_stars = Ok 1
  ∧ ecosystem_score stars max_stars = Ok 15.
Proof.
  intros Hm Hs. split.
  - destruct (ecosystem_score_range 0 max_stars ltac:(lia)) as (v & Hv & Hrange).
    rewrite ecosystem_score_eq in Hv |- * by lia. f_equal.
    replace (ln (IZR (0 + 1)) / ln 10 / (ln (IZR (max_stars + 1)) / ln 10) * 15)%R
      with 0%R.
    + rewrite round_0. lia.
    + change (0 + 1) with 1. rewrite ln_1. unfold Rdiv. now rewrite !Rmult_0_l.
  - rewrite ecosystem_score_eq by lia. f_equal.
    pose proof (scaled_ratio_top stars max_stars Hm Hs). lia.
Qed.

Lemma ecosystem_score_extremes_witness :
  ecosystem_score 0 32179 = Ok 1 ∧ ecosystem_score 32179 32179 = Ok 15.
Proof. apply (ecosystem_score_extremes 32179 32179); lia. Defined.

(** The whole domain of [ecosystem_score]: a value in [1, 15], which is 1
    whenever [max_stars <= 0] (whatever [stars] is, negative included), or a
    [ValueError] from [math.log10], raised exactly for a negative star count
    under a positive [max_stars]; never a division by zero. *)
Theorem ecosystem_score_domain (stars max_stars : Z) :
  match ecosystem_score stars max_stars with
  | Ok v => 1 <= v <= 15 ∧ (max_stars <= 0 ∨ 0 <= stars) ∧ (max_stars <= 0 → v = 1)
  | Raise ex => ex = ValueError ∧ 0 < max_stars ∧ stars < 0
  end.
Proof.
  destruct (Z_le_gt_dec max_stars 0) as [Hm | Hm].
  - unfold ecosystem_score. destruct (Z.leb_spec max_stars 0); [| lia].
    repeat split; auto; lia.
  - destruct (Z_lt_le_dec stars 0) as [Hs | Hs].
    + unfold ecosystem_score, log10.
      destruct (Z.leb_spec max_stars 0); [lia |].
      destruct (Z.leb_spec (stars + 1) 0); [| lia].
      cbn. repeat split; lia.
    + rewrite ecosystem_score_eq by lia. repeat split; lia.
Qed.

(** [momentum_score] returns exactly on optional timestamps; otherwise it
    raises [ValueError] (unparseable string) or [TypeError] (a naive
    datetime subtracted from an aware one). *)
Theorem momentum_score_domain (now : Z) (p : option string) :
  match momentum_score now p with
  | Ok v => timestamp_ok p = true ∧ 1 <= v <= 10
  | Raise ex =>
      timestamp_ok p = false
      ∧ ∃ s, p = Some s
             ∧ match fromisoformat (replace_Z s) with
               | Ok t => dt_utcoffset t = None ∧ ex = TypeError
               | Raise _ => ex = ValueError
               end
  end.
Proof.
  destruct (momentum_score now p) as [v | ex] eqn:Hm.
  - split; [| now apply momentum_score_range in Hm].
    unfold momentum_score, timestamp_ok in *.
    destruct p as [[| c s] |]; try reflexivity.
    destruct (fromisoformat _) as [t | ex]; cbn in Hm; [| discriminate].
    unfold days_since in Hm.
    destruct (dt_utcoffset t); cbn in Hm; [reflexivity | discriminate].
  - unfold momentum_score, timestamp_ok in *.
    destruct p as [[| c s] |]; try discriminate.
    destruct (fromisoformat _) as [t | ex'] eqn:Hp; cbn in Hm.
    + unfold days_since in Hm.
      destruct (dt_utcoffset t) as [off |] eqn:Hoff; cbn in Hm.
      * repeat (destruct (_ <=? _) in Hm); discriminate.
      * injection Hm as <-. split; [reflexivity |].
        eexists. split; [reflexivity |]. rewrite Hp. now split.
    + injection Hm as <-. split; [reflexivity |].
      eexists. split; [reflexivity |]. rewrite Hp.
      unfold fromisoformat in Hp.
      destruct (parse_datetime _); [discriminate | now injection Hp].
Qed.

(** [timedelta.days], clamped at 0, against a day count, in seconds. *)
Lemma clamped_days_le (elapsed k : Z) :
  0 <= k →
  (Z.max 0 (elapsed / 86400) <=? k) = (elapsed <? (k + 1) * 86400).
Proof.
  intros Hk.
  destruct (Z.leb_spec (Z.max 0 (elapsed / 86400)) k);
    destruct (Z.ltb_spec elapsed ((k + 1) * 86400)); try reflexivity;
    Z.to_euclidean_division_equations; lia.
Qed.

(** The steps of [momentum_score] in elapsed seconds. Because
    [timedelta.days] is a floor, [days <= 1] lasts until two full days have
    passed, [days <= 3] until four, and so on; a push in the future counts
    as fresh. *)
Theorem momentum_score_thresholds (now : Z) (s : string) (t : datetime) (off : Z) :
  s ≠ "" →
  fromisoformat (replace_Z s) = Ok t →
  dt_utcoffset t = Some off →
  let elapsed := now - (dt_seconds t - off) in
  momentum_score now (Some s)
  = Ok (if elapsed <? 2 * 86400 then 10
        else if elapsed <? 4 * 86400 then 9
        else if elapsed <? 8 * 86400 then 8
        else if elapsed <? 15 * 86400 then 6
        else if elapsed <? 31 * 86400 then 4
        else 2).
Proof.
  intros Hs Hparse Hoff elapsed.
  unfold momentum_score. destruct s as [| c s]; [contradiction |].
  rewrite Hparse. cbn. unfold days_since. rewrite Hoff. cbn.
  fold elapsed.
  rewrite (clamped_days_le elapsed 1), (clamped_days_le elapsed 3),
    (clamped_days_le elapsed 7), (clamped_days_le elapsed 14),
    (clamped_days_le elapsed 30) by lia.
  cbn [Z.add Z.mul Pos.add Pos.mul Pos.succ].
  repeat (destruct (_ <? _)); reflexivity.
Qed.

Lemma momentum_score_thresholds_witness :
  momentum_score (1705314600 + 2 * 86400 - 1) (Some "2024-01-15T10:30:00Z") = Ok 10
  ∧ momentum_score (1705314600 + 2 * 86400) (Some "2024-01-15T10:30:00Z") = Ok 9.
Proof.
  split.
  - apply (momentum_score_thresholds (1705314600 + 2 * 86400 - 1)
             "2024-01-15T10:30:00Z"
             {| dt_seconds := 1705314600; dt_utcoffset := Some 0 |} 0);
      [discriminate | vm_compute; reflexivity | reflexivity].
  - apply (momentum_score_thresholds (1705314600 + 2 * 86400)
             "2024-01-15T10:30:00Z"
             {| dt_seconds := 1705314600; dt_utcoffset := Some 0 |} 0);
      [discriminate | vm_compute; reflexivity | reflexivity].
Defined.

(** Momentum only decays: for one [pushed_at], a later clock reading never
    gives a higher score, and whether the call raises does not depend on
    the clock. *)
Theorem momentum_score_decays (now1 now2 : Z) (p : option string) :
  now1 <= now2 →
  match momentum_score now1 p, momentum_score now2 p with
  | Ok v1, Ok v2 => v2 <= v1
  | Raise ex1, Raise ex2 => ex1 = ex2
  | _, _ => False
  end.
Proof.
  intros Hnow.
  destruct p as [s |]; [| cbn; lia].
  destruct (decide (s = "")) as [-> | Hs]; [cbn; lia |].
  destruct (fromisoformat (replace_Z s)) as [t | ex] eqn:Hparse.
  2: { unfold momentum_score. destruct s; [contradiction |]. now rewrite Hparse. }
  unfold momentum_score. destruct s as [| c s]; [contradiction |].
  rewrite Hparse. cbn. unfold days_since.
  destruct (dt_utcoffset t) as [off |]; cbn; [| reflexivity].
  assert (Hdays : (now1 - (dt_seconds t - off)) / 86400
                  <= (now2 - (dt_seconds t - off)) / 86400)
    by (apply Z.div_le_mono; lia).
  repeat match goal with
         | |- context [?a <=? ?b] => destruct (Z.leb_spec a b)
         end; lia.
Qed.

Lemma momentum_score_decays_witness :
  match momentum_score 1705314600 (Some "2024-01-15T10:30:00Z"),
        momentum_score 1706000000 (Some "2024-01-15T10:30:00Z") with
  | Ok v1, Ok v2 => v2 <= v1
  | Raise ex1, Raise ex2 => ex1 = ex2
  | _, _ => False
  end.
Proof.
  apply (momentum_score_decays 1705314600 1706000000); lia.
Defined.

(** ** Fetcher: attempts, keys and outages *)

(** [fetch_repo] makes at most three attempts and returns the first success:
    its result is fixed by attempts 0, 1 and 2, and it is absent exactly
    when all three failed. *)
Theorem fetch_repo_first_success (e : env) (repo : string) :
  match fetch_repo e repo with
  | Some data =>
      ∃ i, (i < 3)%nat ∧ gh_api e repo i = Some data
           ∧ ∀ j, (j < i)%nat → gh_api e repo j = None
  | None => ∀ i, (i < 3)%nat → gh_api e repo i = None
  end
  ∧ ∀ e', (∀ i, (i < 3)%nat → gh_api e' repo i = gh_api e repo i) →
          fetch_repo e' repo = fetch_repo e repo.
Proof.
  split.
  - unfold fetch_repo. cbn.
    destruct (gh_api e repo 0) as [d0 |] eqn:H0.
    { exists 0%nat. repeat split; [lia | exact H0 | intros j Hj; lia]. }
    destruct (gh_api e repo 1) as [d1 |] eqn:H1.
    { exists 1%nat. repeat split; [lia | exact H1 |].
      intros j Hj. assert (j = 0%nat) as -> by lia. exact H0. }
    destruct (gh_api e repo 2) as [d2 |] eqn:H2.
    { exists 2%nat. repeat split; [lia | exact H2 |].
      intros j Hj. destruct j as [| [| j]]; [exact H0 | exact H1 | lia]. }
    intros i Hi. destruct i as [| [| [| i]]]; [exact H0 | exact H1 | exact H2 | lia].
  - intros e' Hsame. unfold fetch_repo. cbn.
    rewrite !Hsame by lia. reflexivity.
Qed.

(** The record the fetcher stores for one tracked entity. *)
Lemma fetch_market_snapshot_lookup (e : env) (w : world) (snap : snapshot)
    (w' : world) (key repo : string) :
  fetch_market_snapshot e w = (Ok snap, w') → (key, repo) ∈ REPOS →
  repos snap !! key
  = match fetch_repo e repo with
    | Some live => Some live
    | None =>
        match from_option repos ∅ (snapshot_file w) !! key with
        | Some prior => Some prior
        | None => FALLBACK_METRICS !! key
        end
    end.
Proof.
  intros Hrun Hin. unfold fetch_market_snapshot in Hrun.
  match type of Hrun with
  | context [foldM ?body REPOS ∅] => destruct (foldM body REPOS ∅) as [rs | ex] eqn:Hrs
  end; [| discriminate].
  injection Hrun as <- _. cbn [repos].
  destruct (insert_loop_lookup
              (λ key repo,
                 match fetch_repo e repo with
                 | Some data => Ok data
                 | None =>
                     match from_option repos ∅ (snapshot_file w) !! key with
                     | Some data => Ok data
                     | None => getitem key (FALLBACK_METRICS !! key)
                     end
                 end) REPOS ∅ rs key repo REPOS_keys_NoDup Hrs Hin)
    as (d & Hd & ->).
  destruct (fetch_repo e repo); [now injection Hd as -> |].
  destruct (_ !! key); [now injection Hd as -> |].
  destruct (FALLBACK_METRICS !! key); [now injection Hd as -> | discriminate].
Qed.

Lemma fetch_market_snapshot_untracked (e : env) (w : world) (snap : snapshot)
    (w' : world) (key : string) :
  fetch_market_snapshot e w = (Ok snap, w') → key ∉ REPOS.*1 →
  repos snap !! key = None.
Proof.
  intros Hrun Hk. unfold fetch_market_snapshot in Hrun.
  match type of Hrun with
  | context [foldM ?body REPOS ∅] => destruct (foldM body REPOS ∅) as [rs | ex] eqn:Hrs
  end; [| discriminate].
  injection Hrun as <- _. cbn [repos].
  rewrite (insert_loop_other
             (λ key repo,
                match fetch_repo e repo with
                | Some data => Ok data
                | None =>
                    match from_option repos ∅ (snapshot_file w) !! key with
                    | Some data => Ok data
                    | None => getitem key (FALLBACK_METRICS !! key)
                    end
                end) REPOS ∅ rs key Hrs Hk).
  apply lookup_empty.
Qed.

(** A fresh snapshot holds a record for each of the five tracked entities
    and for nothing else: keys of the prior snapshot outside [REPOS] are
    dropped, and no tracked record is ever missing. Only the snapshot
    document is written. *)
Theorem fetch_market_snapshot_keys (e : env) (w : world) :
  ∃ snap w',
    fetch_market_snapshot e w = (Ok snap, w')
    ∧ (∀ key, is_Some (repos snap !! key) ↔ key ∈ REPOS.*1)
    ∧ updated_at snap = stamp e
    ∧ snapshot_file w' = Some snap
    ∧ state_file w' = state_file w
    ∧ queue_file w' = queue_file w
    ∧ escalation_file w' = escalation_file w
    ∧ score_file w' = score_file w
    ∧ shell_log w' = shell_log w.
Proof.
  destruct (fetch_market_snapshot_returns e w) as (snap & Hrun & Hstamp).
  exists snap, (set_snapshot_file (Some snap) w).
  split; [exact Hrun |]. split; [| repeat split; assumption].
  intros key. split.
  - intros Hsome. destruct (decide (key ∈ REPOS.*1)) as [Hin | Hout]; [exact Hin |].
    rewrite (fetch_market_snapshot_untracked _ _ _ _ key Hrun Hout) in Hsome.
    now destruct Hsome.
  - intros Hin. apply list_elem_of_fmap in Hin as ([k repo] & -> & Hin). cbn.
    rewrite (fetch_market_snapshot_lookup _ _ _ _ k repo Hrun Hin).
    destruct (fetch_repo e repo); [eauto |].
    destruct (_ !! k); [eauto |].
    exact (FALLBACK_METRICS_total k repo Hin).
Qed.

(** A total outage changes nothing but the timestamp: when every live fetch
    of a cycle fails, the snapshot it writes carries exactly the records the
    previous fetch persisted. *)
Theorem fetch_outage_keeps_records (e1 e2 : env) (w : world) :
  (∀ repo, fetch_repo e2 repo = None) →
  ∃ snap1 w1 snap2 w2,
    fetch_market_snapshot e1 w = (Ok snap1, w1)
    ∧ fetch_market_snapshot e2 w1 = (Ok snap2, w2)
    ∧ repos snap2 = repos snap1
    ∧ updated_at snap2 = stamp e2.
Proof.
  intros Hout.
  destruct (fetch_market_snapshot_returns e1 w) as (snap1 & Hrun1 & _).
  destruct (fetch_market_snapshot_returns e2 (set_snapshot_file (Some snap1) w))
    as (snap2 & Hrun2 & Hstamp).
  exists snap1, (set_snapshot_file (Some snap1) w), snap2,
    (set_snapshot_file (Some snap2) (set_snapshot_file (Some snap1) w)).
  repeat split; try assumption.
  apply map_eq. intros key.
  destruct (decide (key ∈ REPOS.*1)) as [Hin | Hno].
  - apply list_elem_of_fmap in Hin as ([k repo] & -> & Hin). cbn.
    rewrite (fetch_market_snapshot_lookup _ _ _ _ k repo Hrun2 Hin), Hout.
    cbn [snapshot_file set_snapshot_file from_option].
    destruct (repos snap1 !! k) eqn:H1; [reflexivity |].
    rewrite (fetch_market_snapshot_lookup _ _ _ _ k repo Hrun1 Hin) in H1.
    destruct (fetch_repo e1 repo); [discriminate |].
    destruct (_ !! k); [discriminate | now rewrite H1].
  - rewrite (fetch_market_snapshot_untracked _ _ _ _ key Hrun1 Hno).
    apply (fetch_market_snapshot_untracked _ _ _ _ key Hrun2 Hno).
Qed.

Lemma fetch_outage_keeps_records_witness :
  ∃ snap1 w1 snap2 w2,
    fetch_market_snapshot quiet_env empty_world = (Ok snap1, w1)
    ∧ fetch_market_snapshot offline_env w1 = (Ok snap2, w2)
    ∧ repos snap2 = repos snap1
    ∧ updated_at snap2 = "2024-01-16T10:30:00Z".
Proof.
  apply (fetch_outage_keeps_records quiet_env offline_env empty_world).
  intros repo. reflexivity.
Defined.

(** ** Score engine: rows, bounds and exceptions *)

Lemma entity_row_fields (now : Z) (snap : snapshot) (key : string) (b : base)
    (r : row) :
  entity_row now snap key b = Ok r →
  product r = base_product b
  ∧ ai_fit r = base_ai_fit b
  ∧ reliability r = base_reliability b
  ∧ ecosystem_score (default 0 (repos snap !! key ≫= stargazers_count))
      (max_stars_of snap) = Ok (ecosystem r)
  ∧ momentum_score now (repos snap !! key ≫= pushed_at) = Ok (momentum r)
  ∧ total r = product r + ai_fit r + reliability r + ecosystem r + momentum r.
Proof.
  unfold entity_row.
  destruct (ecosystem_score _ _) as [eco | ex]; cbn; [| discriminate].
  destruct (momentum_score _ _) as [mom | ex]; cbn; [| discriminate].
  intros [= <-]. cbn. repeat split; reflexivity.
Qed.

Lemma unboosted_rows_keys (now : Z) (snap : snapshot) (rows : gmap string row)
    (key : string) :
  unboosted_rows now snap = Ok rows →
  is_Some (rows !! key) ↔ key ∈ BASE_SCORES.*1.
Proof.
  intros Hrows. split.
  - intros Hsome. destruct (decide (key ∈ BASE_SCORES.*1)) as [Hin | Hout]; [exact Hin |].
    rewrite (unboosted_rows_other _ _ _ key Hrows Hout) in Hsome. now destruct Hsome.
  - intros Hin. apply list_elem_of_fmap in Hin as ([k b] & -> & Hin). cbn.
    destruct (unboosted_rows_lookup _ _ _ k b Hrows Hin) as (r & _ & ->). eauto.
Qed.

(** A score mapping returned by [build_scores] has a row for each of the
    five entities of [BASE_SCORES] and no other, and in every row, boosted
    or not, [total] is the sum of the five sub-scores. *)
Theorem build_scores_rows (now : Z) (snap : snapshot) (st : state)
    (scores : gmap string row) :
  build_scores now snap st = Ok scores →
  (∀ key, is_Some (scores !! key) ↔ key ∈ BASE_SCORES.*1)
  ∧ ∀ key r, scores !! key = Some r →
             total r = product r + ai_fit r + reliability r + ecosystem r + momentum r.
Proof.
  intros Hs. pose proof Hs as Hs'. rewrite build_scores_eq in Hs'.
  destruct (unboosted_rows now snap) as [rows | ex] eqn:Hrows; [| discriminate].
  destruct (rows !! "fileview") as [fv |] eqn:Hfv; [| discriminate].
  injection Hs' as <-. split.
  - intros key. rewrite <- (unboosted_rows_keys _ _ _ key Hrows).
    destruct (decide (key = "fileview")) as [-> | Hne].
    + rewrite lookup_insert_eq, Hfv. split; eauto.
    + now rewrite lookup_insert_ne.
  - intros key r. destruct (decide (key = "fileview")) as [-> | Hne].
    + rewrite lookup_insert_eq. intros [= <-]. reflexivity.
    + rewrite lookup_insert_ne by done. intros Hr.
      assert (Hin : key ∈ BASE_SCORES.*1).
      { apply (unboosted_rows_keys _ _ _ key Hrows). eauto. }
      apply list_elem_of_fmap in Hin as ([k b] & -> & Hin). cbn in Hr.
      destruct (unboosted_rows_lookup _ _ _ k b Hrows Hin) as (r' & Hrow & Hr').
      rewrite Hr in Hr'. injection Hr' as <-.
      now apply entity_row_fields in Hrow.
Qed.

Lemma build_scores_rows_witness :
  ∃ scores,
    build_scores 1705314600 bare_snapshot generous_state = Ok scores
    ∧ ∀ key r, scores !! key = Some r →
               total r = product r + ai_fit r + reliability r + ecosystem r
                         + momentum r.
Proof.
  exists (match build_scores 1705314600 bare_snapshot generous_state with
          | Ok scores => scores
          | Raise _ => ∅
          end).
  assert (Hrun : build_scores 1705314600 bare_snapshot generous_state
                 = Ok (match build_scores 1705314600 bare_snapshot generous_state with
                       | Ok scores => scores
                       | Raise _ => ∅
                       end))
    by (vm_compute; reflexivity).
  split; [exact Hrun |].
  exact (proj2 (build_scores_rows _ _ _ _ Hrun)).
Defined.

(** Competitors are never boosted: whatever the state holds, the row of an
    entity other than [fileview] carries its static base values, an
    ecosystem score in [1, 15] and a momentum score in [1, 10]. *)
Theorem build_scores_competitors (now : Z) (snap : snapshot) (st : state)
    (scores : gmap string row) (key : string) (b : base) :
  build_scores now snap st = Ok scores →
  (key, b) ∈ BASE_SCORES → key ≠ "fileview" →
  ∃ r,
    scores !! key = Some r
    ∧ product r = base_product b
    ∧ ai_fit r = base_ai_fit b
    ∧ reliability r = base_reliability b
    ∧ 1 <= ecosystem r <= 15
    ∧ 1 <= momentum r <= 10
    ∧ ∀ st', build_scores now snap st' ≫= (λ s', Ok (s' !! key)) = Ok (Some r).
Proof.
  intros Hs Hin Hne. pose proof Hs as Hs'. rewrite build_scores_eq in Hs'.
  destruct (unboosted_rows now snap) as [rows | ex] eqn:Hrows; [| discriminate].
  destruct (unboosted_rows_lookup _ _ _ key b Hrows Hin) as (r & Hrow & Hr).
  exists r. rewrite (build_scores_others _ _ _ _ _ key Hs Hrows Hne).
  split; [exact Hr |].
  apply entity_row_fields in Hrow as (Hp & Ha & Hrel & Heco & Hmom & _).
  repeat (split; [assumption |]).
  split; [now apply ecosystem_score_clamped in Heco |].
  split; [now apply momentum_score_range in Hmom |].
  intros st'. rewrite build_scores_eq, Hrows.
  destruct (rows !! "fileview"); [| discriminate]. cbn.
  rewrite lookup_insert_ne by done. now rewrite Hr.
Qed.

Lemma build_scores_competitors_witness :
  ∃ scores r,
    build_scores 1705314600 bare_snapshot generous_state = Ok scores
    ∧ scores !! "yazi" = Some r
    ∧ product r = 33.
Proof.
  assert (Hrun : build_scores 1705314600 bare_snapshot generous_state
                 = Ok (match build_scores 1705314600 bare_snapshot generous_state with
                       | Ok scores => scores
                       | Raise _ => ∅
                       end))
    by (vm_compute; reflexivity).
  destruct (build_scores_competitors _ _ _ _ "yazi"
              {| base_product := 33; base_ai_fit := 6; base_reliability := 12 |}
              Hrun ltac:(right; left) ltac:(discriminate))
    as (r & Hr & Hp & _).
  eexists _, r. split; [exact Hrun |]. split; assumption.
Defined.

Lemma insert_loop_raises {B V : Type} (F : string → B → result V)
    (l : list (string * B)) (acc : gmap string V) (ex : exn) :
  foldM (insert_resolved F) l acc = Raise ex →
  ∃ key b, (key, b) ∈ l ∧ F key b = Raise ex.
Proof.
  revert acc. induction l as [| [k b] l IH]; intros acc Hrun; [discriminate |].
  cbn in Hrun. destruct (F k b) as [d | ex'] eqn:HF; cbn in Hrun.
  - destruct (IH _ Hrun) as (key & b' & Hin & Hraise).
    exists key, b'. split; [now right | exact Hraise].
  - injection Hrun as <-. exists k, b. split; [left | exact HF].
Qed.

Lemma ecosystem_score_raises (stars max_stars : Z) (ex : exn) :
  ecosystem_score stars max_stars = Raise ex →
  ex = ValueError ∧ 0 < max_stars ∧ stars < 0.
Proof.
  destruct (Z_le_gt_dec max_stars 0) as [Hm | Hm].
  { unfold ecosystem_score. destruct (Z.leb_spec max_stars 0); [discriminate | lia]. }
  destruct (Z_lt_le_dec stars 0) as [Hs | Hs].
  - unfold ecosystem_score, log10.
    destruct (Z.leb_spec max_stars 0); [lia |].
    destruct (Z.leb_spec (stars + 1) 0); [| lia].
    cbn. intros [= <-]. repeat split; lia.
  - rewrite ecosystem_score_eq by lia. discriminate.
Qed.

Lemma momentum_score_raises (now : Z) (p : option string) (ex : exn) :
  momentum_score now p = Raise ex → ex = ValueError ∨ ex = TypeError.
Proof.
  unfold momentum_score.
  destruct p as [[| c s] |]; try discriminate.
  unfold fromisoformat. destruct (parse_datetime _) as [t |]; cbn.
  - unfold days_since. destruct (dt_utcoffset t); cbn.
    + repeat (destruct (_ <=? _)); discriminate.
    + intros [= <-]. now right.
  - intros [= <-]. now left.
Qed.

Lemma foldl_max_ge (l : list Z) (a : Z) :
  a <= foldl Z.max a l ∧ ∀ x, x ∈ l → x <= foldl Z.max a l.
Proof.
  revert a. induction l as [| y l IH]; intros a; cbn.
  - split; [lia | intros x Hx; inversion Hx].
  - destruct (IH (Z.max a y)) as [Hinit Helem]. split; [lia |].
    intros x Hx. apply elem_of_cons in Hx as [-> | Hx]; [lia | now apply Helem].
Qed.

Lemma foldl_max_le (l : list Z) (a u : Z) :
  a <= u → (∀ x, x ∈ l → x <= u) → foldl Z.max a l <= u.
Proof.
  revert a. induction l as [| y l IH]; intros a Ha Hall; cbn; [exact Ha |].
  apply IH.
  - pose proof (Hall y ltac:(left)). lia.
  - intros x Hx. apply Hall. now right.
Qed.

Lemma max_default_ge (l : list Z) (d x : Z) : x ∈ l → x <= max_default l d.
Proof.
  destruct l as [| y l]; [intros Hx; inversion Hx |].
  intros Hx. cbn. destruct (foldl_max_ge l y) as [Hinit Helem].
  apply elem_of_cons in Hx as [-> | Hx]; [exact Hinit | now apply Helem].
Qed.

Lemma max_default_le (l : list Z) (d u x : Z) :
  x ∈ l → (∀ y, y ∈ l → y <= u) → max_default l d <= u.
Proof.
  destruct l as [| y l]; [intros Hx; inversion Hx |].
  intros _ Hall. cbn. apply foldl_max_le.
  - apply Hall. left.
  - intros z Hz. apply Hall. now right.
Qed.

Lemma stars_listed (snap : snapshot) (x : Z) :
  x ∈ (snd <$> map_to_list ((λ v, default 0 (stargazers_count v)) <$> repos snap))
  ↔ ∃ key rd, repos snap !! key = Some rd ∧ x = default 0 (stargazers_count rd).
Proof.
  rewrite list_elem_of_fmap. split.
  - intros ([key y] & -> & Hin). apply elem_of_map_to_list in Hin.
    rewrite lookup_fmap in Hin.
    destruct (repos snap !! key) as [rd |] eqn:Hrd; [| discriminate].
    injection Hin as <-. eauto.
  - intros (key & rd & Hrd & ->).
    exists (key, default 0 (stargazers_count rd)). split; [reflexivity |].
    apply elem_of_map_to_list. now rewrite lookup_fmap, Hrd.
Qed.

(** [build_scores] returns whenever the star counts of the five entities
    are non-negative and their [pushed_at] are optional timestamps, a
    missing record or key counting as 0 and as absent; when it raises, the
    exception is a [ValueError] or a [TypeError] of a sub-score, never a
    [KeyError] or a division by zero. *)
Theorem build_scores_domain (now : Z) (snap : snapshot) (st : state) :
  (Forall (λ kb : string * base,
             0 <= default 0 (repos snap !! kb.1 ≫= stargazers_count)
             ∧ timestamp_ok (repos snap !! kb.1 ≫= pushed_at) = true)
          BASE_SCORES →
   ∃ scores, build_scores now snap st = Ok scores)
  ∧ ∀ ex, build_scores now snap st = Raise ex → ex = ValueError ∨ ex = TypeError.
Proof.
  split.
  - intros Hall. rewrite build_scores_eq.
    destruct (insert_loop_returns (entity_row now snap) BASE_SCORES ∅) as [rows Hrows].
    { intros key b Hin.
      pose proof (proj1 (Forall_forall _ _) Hall (key, b) Hin) as [Hs Ht].
      cbn [fst] in Hs, Ht. unfold entity_row.
      destruct (ecosystem_score_range _ (max_stars_of snap) Hs) as (eco & -> & _).
      destruct (momentum_score_returns now _ Ht) as (mom & ->).
      cbn. eauto. }
    unfold unboosted_rows. rewrite Hrows.
    destruct (unboosted_rows_lookup now snap rows "fileview"
                {| base_product := 22; base_ai_fit := 18; base_reliability := 10 |}
                Hrows ltac:(left)) as (r & _ & ->).
    eauto.
  - intros ex. rewrite build_scores_eq.
    destruct (unboosted_rows now snap) as [rows | ex'] eqn:Hrows.
    + destruct (unboosted_rows_lookup now snap rows "fileview"
                  {| base_product := 22; base_ai_fit := 18; base_reliability := 10 |}
                  Hrows ltac:(left)) as (r & _ & ->).
      discriminate.
    + intros [= <-].
      apply insert_loop_raises in Hrows as (key & b & _ & Hrow).
      unfold entity_row in Hrow.
      destruct (ecosystem_score _ _) as [eco | ex1] eqn:Heco; cbn in Hrow.
      * destruct (momentum_score _ _) as [mom | ex2] eqn:Hmom; cbn in Hrow;
          [discriminate |].
        injection Hrow as <-. now apply momentum_score_raises in Hmom.
      * injection Hrow as <-. apply ecosystem_score_raises in Heco as [-> _].
        now left.
Qed.

(** An entity missing from the snapshot is scored as having no stars and no
    push: ecosystem 1 and momentum 1 (before the boost, for [fileview]). *)
Theorem build_scores_missing_entity (now : Z) (snap : snapshot) (st : state)
    (scores : gmap string row) (key : string) (b : base) :
  build_scores now snap st = Ok scores →
  (key, b) ∈ BASE_SCORES →
  repos snap !! key = None →
  ∃ r,
    scores !! key = Some r
    ∧ ecosystem r = 1 + (if String.eqb key "fileview"
                         then default 0 (fileview_boost st !! "ecosystem") else 0)
    ∧ momentum r = 1 + (if String.eqb key "fileview"
                        then default 0 (fileview_boost st !! "momentum") else 0).
Proof.
  intros Hs Hin Hmiss. pose proof Hs as Hs'. rewrite build_scores_eq in Hs'.
  destruct (unboosted_rows now snap) as [rows | ex] eqn:Hrows; [| discriminate].
  destruct (unboosted_rows_lookup _ _ _ key b Hrows Hin) as (r & Hrow & Hr).
  apply entity_row_fields in Hrow as (_ & _ & _ & Heco & Hmom & _).
  rewrite Hmiss in Heco, Hmom. cbn in Heco, Hmom.
  rewrite ecosystem_score_no_stars in Heco.
  injection Heco as Heco. injection Hmom as Hmom.
  destruct (String.eqb_spec key "fileview") as [-> | Hne].
  - rewrite Hr in Hs'. injection Hs' as <-.
    rewrite lookup_insert_eq. eexists. split; [reflexivity |].
    cbn. rewrite <- Heco, <- Hmom. split; reflexivity.
  - rewrite (build_scores_others _ _ _ _ _ key Hs Hrows Hne).
    exists r. split; [exact Hr |]. rewrite <- Heco, <- Hmom. split; reflexivity.
Qed.

Lemma build_scores_missing_entity_witness :
  ∃ scores r,
    build_scores 1705314600 bare_snapshot generous_state = Ok scores
    ∧ scores !! "nnn" = Some r
    ∧ ecosystem r = 1 + 0
    ∧ momentum r = 1 + 0.
Proof.
  assert (Hrun : build_scores 1705314600 bare_snapshot generous_state
                 = Ok (match build_scores 1705314600 bare_snapshot generous_state with
                       | Ok scores => scores
                       | Raise _ => ∅
                       end))
    by (vm_compute; reflexivity).
  destruct (build_scores_missing_entity _ _ _ _ "nnn"
              {| base_product := 24; base_ai_fit := 3; base_reliability := 14 |}
              Hrun ltac:(do 3 right; left) eq_refl)
    as (r & Hr & He & Hm).
  eexists _, r. split; [exact Hrun |]. repeat split; assumption.
Defined.

(** The leader gets the full ecosystem score: a competitor whose star count
    is positive and not exceeded by any record of the snapshot scores 15. *)
Theorem build_scores_leader (now : Z) (snap : snapshot) (st : state)
    (key : string) (b : base) (rd : repo_data) :
  (key, b) ∈ BASE_SCORES → key ≠ "fileview" →
  repos snap !! key = Some rd →
  0 < default 0 (stargazers_count rd) →
  (∀ key' rd', repos snap !! key' = Some rd' →
               default 0 (stargazers_count rd') <= default 0 (stargazers_count rd)) →
  match build_scores now snap st with
  | Ok scores => ecosystem <$> scores !! key = Some 15
  | Raise _ => True
  end.
Proof.
  intros Hin Hne Hrd Hpos Hmax.
  destruct (build_scores now snap st) as [scores | ex] eqn:Hs; [| exact I].
  pose proof Hs as Hs'. rewrite build_scores_eq in Hs'.
  destruct (unboosted_rows now snap) as [rows | ex] eqn:Hrows; [| discriminate].
  destruct (unboosted_rows_lookup _ _ _ key b Hrows Hin) as (r & Hrow & Hr).
  rewrite (build_scores_others _ _ _ _ _ key Hs Hrows Hne), Hr. cbn. f_equal.
  apply entity_row_fields in Hrow as (_ & _ & _ & Heco & _).
  rewrite Hrd in Heco. cbn in Heco.
  assert (Hm : max_stars_of snap = default 0 (stargazers_count rd)).
  { apply Z.le_antisymm.
    - apply (max_default_le _ _ _ (default 0 (stargazers_count rd))).
      + apply stars_listed. eauto.
      + intros y Hy. apply stars_listed in Hy as (k' & rd' & Hk' & ->). eauto.
    - apply max_default_ge, stars_listed. eauto. }
  rewrite Hm in Heco.
  rewrite ecosystem_score_eq in Heco by lia. injection Heco as <-.
  pose proof (scaled_ratio_top (default 0 (stargazers_count rd))
                (default 0 (stargazers_count rd)) ltac:(lia) ltac:(lia)).
  lia.
Qed.

Lemma build_scores_leader_witness :
  match build_scores 1705314600 leader_snapshot DEFAULT_STATE with
  | Ok scores => ecosystem <$> scores !! "yazi" = Some 15
  | Raise _ => True
  end.
Proof.
  apply (build_scores_leader 1705314600 leader_snapshot DEFAULT_STATE "yazi"
           {| base_product := 33; base_ai_fit := 6; base_reliability := 12 |}
           (metrics 32179 701 73)).
  - right. left.
  - discriminate.
  - reflexivity.
  - cbn. lia.
  - intros key' rd' Hrd. cbn [leader_snapshot repos] in Hrd.
    apply lookup_singleton_Some in Hrd as [_ <-]. cbn. lia.
Defined.

(** ** Executor: effects, exceptions and progress *)

Lemma add_boosts_raises (task_boost boost : gmap string Z) (ex : exn) :
  add_boosts task_boost boost = Raise ex →
  ∃ k, ex = KeyError k ∧ k ∈ DIMS ∧ boost !! k = None.
Proof.
  unfold add_boosts, DIMS. cbn [foldM].
  destruct (boost !! "product") as [b1 |] eqn:E1; cbn.
  2: { intros [= <-]. exists "product". repeat split; [set_solver | exact E1]. }
  rewrite lookup_insert_ne by done.
  destruct (boost !! "ai_fit") as [b2 |] eqn:E2; cbn.
  2: { intros [= <-]. exists "ai_fit". repeat split; [set_solver | exact E2]. }
  rewrite !lookup_insert_ne by done.
  destruct (boost !! "reliability") as [b3 |] eqn:E3; cbn.
  2: { intros [= <-]. exists "reliability". repeat split; [set_solver | exact E3]. }
  rewrite !lookup_insert_ne by done.
  destruct (boost !! "ecosystem") as [b4 |] eqn:E4; cbn.
  2: { intros [= <-]. exists "ecosystem". repeat split; [set_solver | exact E4]. }
  rewrite !lookup_insert_ne by done.
  destruct (boost !! "momentum") as [b5 |] eqn:E5; cbn.
  2: { intros [= <-]. exists "momentum". repeat split; [set_solver | exact E5]. }
  discriminate.
Qed.

Lemma add_boosts_present (task_boost boost boost' : gmap string Z) (k : string) :
  add_boosts task_boost boost = Ok boost' → k ∈ DIMS → is_Some (boost !! k).
Proof.
  intros Hrun Hk.
  pose proof (add_boosts_lookup _ _ _ k Hrun) as Hlook.
  rewrite bool_decide_eq_true_2 in Hlook by exact Hk.
  destruct (boost !! k) as [b |] eqn:Hb; [eauto |].
  exfalso. revert Hrun. unfold add_boosts, DIMS. cbn [foldM].
  repeat (apply elem_of_cons in Hk as [-> | Hk]); [.. | inversion Hk];
    repeat (rewrite ?lookup_insert_ne by done;
            match goal with
            | |- context [getitem ?key (boost !! ?key)] =>
                destruct (boost !! key) eqn:?; cbn; [| discriminate]
            end);
    congruence.
Qed.

Lemma add_boosts_returns (task_boost boost : gmap string Z) :
  (∀ k, k ∈ DIMS → is_Some (boost !! k)) →
  ∃ boost', add_boosts task_boost boost = Ok boost'.
Proof.
  intros Hall. destruct (add_boosts task_boost boost) as [b' | ex] eqn:Hrun; [eauto |].
  apply add_boosts_raises in Hrun as (k & _ & Hk & Hnone).
  destruct (Hall k Hk) as [b Hb]. congruence.
Qed.

(** Which key is reported missing depends on the state alone. *)
Lemma add_boosts_raise_indep (boost1 boost2 boost : gmap string Z) (ex : exn) :
  add_boosts boost1 boost = Raise ex → add_boosts boost2 boost = Raise ex.
Proof.
  unfold add_boosts, DIMS. cbn [foldM].
  repeat (rewrite ?lookup_insert_ne by done;
          match goal with
          | |- context [getitem ?key (boost !! ?key)] =>
              destruct (boost !! key) eqn:?; cbn; [| exact (λ H, H)]
          end).
  discriminate.
Qed.

(** The boost loop succeeds exactly when the state's boost has all five
    dimensions (it raises [KeyError] on one that is missing), and then keeps
    the key set: nothing is added, nothing removed. *)
Theorem add_boosts_defined (task_boost boost : gmap string Z) :
  match add_boosts task_boost boost with
  | Ok boost' =>
      Forall (λ k, is_Some (boost !! k)) DIMS
      ∧ ∀ k, is_Some (boost' !! k) ↔ is_Some (boost !! k)
  | Raise ex => ∃ k, ex = KeyError k ∧ k ∈ DIMS ∧ boost !! k = None
  end.
Proof.
  destruct (add_boosts task_boost boost) as [boost' | ex] eqn:Hrun.
  2: { now apply add_boosts_raises in Hrun. }
  split.
  - apply Forall_forall. intros k Hk. exact (add_boosts_present _ _ _ k Hrun Hk).
  - intros k. rewrite (add_boosts_lookup _ _ _ k Hrun).
    case_bool_decide; [| reflexivity].
    destruct (boost !! k); cbn; split; intros [? ?]; eauto; discriminate.
Qed.

(** Boosts of two tasks add up in either order, and a missing dimension is
    reported the same way whichever task comes first. *)
Theorem add_boosts_commute (boost1 boost2 boost : gmap string Z) :
  add_boosts boost1 boost ≫= add_boosts boost2
  = add_boosts boost2 boost ≫= add_boosts boost1.
Proof.
  destruct (add_boosts boost1 boost) as [b1 | ex1] eqn:H1;
    destruct (add_boosts boost2 boost) as [b2 | ex2] eqn:H2;
    unfold mbind, result_bind.
  - destruct (add_boosts_returns boost2 b1) as [b12 H12].
    { intros k Hk. rewrite (add_boosts_lookup _ _ _ k H1), bool_decide_eq_true_2
        by exact Hk.
      destruct (add_boosts_present _ _ _ k H1 Hk) as [b ->]. cbn. eauto. }
    destruct (add_boosts_returns boost1 b2) as [b21 H21].
    { intros k Hk. rewrite (add_boosts_lookup _ _ _ k H2), bool_decide_eq_true_2
        by exact Hk.
      destruct (add_boosts_present _ _ _ k H2 Hk) as [b ->]. cbn. eauto. }
    rewrite H12, H21. f_equal. apply map_eq. intros k.
    rewrite (add_boosts_lookup _ _ _ k H12), (add_boosts_lookup _ _ _ k H21),
      (add_boosts_lookup _ _ _ k H1), (add_boosts_lookup _ _ _ k H2).
    case_bool_decide; [| reflexivity].
    destruct (boost !! k); cbn; [f_equal; lia | reflexivity].
  - apply (add_boosts_raise_indep _ boost1) in H2. congruence.
  - apply (add_boosts_raise_indep _ boost2) in H1. congruence.
  - apply (add_boosts_raise_indep _ boost2) in H1. congruence.
Qed.

Ltac in_list :=
  solve [repeat first [apply list_elem_of_here | apply list_elem_of_further]].

(** Evaluates the closed [bool_decide] tests of a goal. *)
Ltac reduce_decide :=
  repeat match goal with
         | |- context [bool_decide ?P] =>
             let b := eval vm_compute in (bool_decide P) in
             change (bool_decide P) with b
         end.

Lemma todo_count_insert (l : list task) (i : nat) (t t' : task) :
  l !! i = Some t → is_todo t → ¬ is_todo t' →
  (length (filter is_todo (<[i := t']> l)) + 1 = length (filter is_todo l))%nat.
Proof.
  revert i. induction l as [| x l IH]; intros i Hi Ht Ht'; [discriminate |].
  destruct i as [| i]; cbn in Hi.
  - injection Hi as ->. cbn [insert list_insert].
    rewrite filter_cons_False, filter_cons_True by assumption.
    cbn [length]. apply Nat.add_1_r.
  - cbn [insert list_insert]. fold (<[i := t']> l).
    rewrite !filter_cons. specialize (IH i Hi Ht Ht').
    destruct (decide (is_todo x)); cbn [length]; [| exact IH].
    rewrite <- IH. reflexivity.
Qed.

Lemma set_outcome_not_todo (status : string) (res completed : option string)
    (t : task) :
  status ≠ "todo" → ¬ is_todo (set_outcome status res completed t).
Proof. intros Hs Ht. unfold is_todo in Ht. cbn in Ht. contradiction. Qed.

(** What one returning invocation touches. It reports one of five outcomes;
    the state changes only on [done] and the in-memory queue only on
    [blocked], [failed] or [done], which are also the only outcomes that
    write the queue document; at most one command is run, and only on
    [failed] or [done]; the escalation log is written only on [major]; the
    state, snapshot and score documents are never written. *)
Theorem execute_task_effects (e : env) (queue : list task) (st : state) (w : world)
    (r : string) (queue' : list task) (st' : state) (w' : world) :
  execute_task e queue st w = (Ok (r, queue', st'), w') →
  r ∈ ["no_task"; "major"; "blocked"; "failed"; "done"]
  ∧ (r ≠ "done" → st' = st)
  ∧ (if bool_decide (r ∈ ["blocked"; "failed"; "done"])
     then queue_file w' = Some queue'
     else queue' = queue ∧ queue_file w' = queue_file w)
  ∧ (if bool_decide (r ∈ ["failed"; "done"])
     then ∃ cmd, shell_log w' = (shell_log w ++ [cmd])%list
     else shell_log w' = shell_log w)
  ∧ (r ≠ "major" → escalation_file w' = escalation_file w)
  ∧ state_file w' = state_file w
  ∧ snapshot_file w' = snapshot_file w
  ∧ score_file w' = score_file w.
Proof.
  intros Hrun. apply execute_task_executes in Hrun.
  destruct Hrun; (split; [in_list |]); reduce_decide; cbn iota;
    repeat split; intros; try reflexivity; try congruence; eauto.
Qed.

Lemma execute_task_effects_witness :
  ∃ queue' st' w',
    execute_task failing_env [normal_task "t1" ∅] DEFAULT_STATE empty_world
    = (Ok ("failed", queue', st'), w')
    ∧ st' = DEFAULT_STATE
    ∧ queue_file w' = Some queue'.
Proof.
  assert (Hrun : execute_task failing_env [normal_task "t1" ∅] DEFAULT_STATE empty_world
                 = (Ok ("failed",
                        <[0%nat := set_outcome "failed"
                                     (Some (last_chars 800
                                              (shell failing_env "true").2))
                                     None (normal_task "t1" ∅)]>
                          [normal_task "t1" ∅],
                        DEFAULT_STATE),
                    (execute_task failing_env [normal_task "t1" ∅] DEFAULT_STATE
                       empty_world).2))
    by (vm_compute; reflexivity).
  destruct (execute_task_effects _ _ _ _ _ _ _ _ Hrun) as (_ & Hst & Hq & _).
  do 3 eexists. split; [exact Hrun |].
  split; [apply Hst; discriminate | exact Hq].
Defined.

(** The executor raises nothing but [KeyError], for an [id] or [title] the
    selected task lacks or a boost dimension the state lacks. No document
    has been written by then, but the task's command may already have run:
    the queue on disk still lists the task as [todo]. *)
Theorem execute_task_raises (e : env) (queue : list task) (st : state) (w : world)
    (ex : exn) (w' : world) :
  execute_task e queue st w = (Raise ex, w') →
  (∃ k, ex = KeyError k ∧ k ∈ "id" :: "title" :: DIMS)
  ∧ (shell_log w' = shell_log w
     ∨ ∃ i t cmd, list_find is_todo queue = Some (i, t)
                  ∧ task_command t = Some cmd
                  ∧ shell_log w' = (shell_log w ++ [cmd])%list)
  ∧ queue_file w' = queue_file w
  ∧ escalation_file w' = escalation_file w
  ∧ state_file w' = state_file w
  ∧ snapshot_file w' = snapshot_file w
  ∧ score_file w' = score_file w.
Proof.
  unfold execute_task.
  destruct (list_find is_todo queue) as [[i t] |]; [| discriminate].
  destruct (task_nonempty t); cbn [negb]; [| discriminate].
  destruct (String.eqb _ "major").
  { unfold write_escalation. run_M.
    destruct (task_id t); cbn.
    2: { intros [= <- <-]. split; [exists "id"; split; [reflexivity | in_list] |].
         repeat split; auto. }
    destruct (task_title t); cbn.
    2: { intros [= <- <-]. split; [exists "title"; split; [reflexivity | in_list] |].
         repeat split; auto. }
    destruct (escalation_file w); discriminate. }
  destruct (task_command t) as [[| c cmd] |] eqn:Hcmd; try discriminate.
  run_M. destruct (_ =? 0); cbn [negb]; [| discriminate].
  cbn [task_boost set_outcome task_id].
  destruct (add_boosts _ _) as [boost |] eqn:Hboost; cbn.
  2: { intros [= <- <-]. apply add_boosts_raises in Hboost as (k & -> & Hk & _).
       split; [exists k; split; [reflexivity | now do 2 right] |].
       split; [right; exists i, t, (String c cmd); now repeat split |].
       repeat split; reflexivity. }
  destruct (task_id t); cbn; [discriminate |].
  intros [= <- <-]. split; [exists "id"; split; [reflexivity | in_list] |].
  split; [right; exists i, t, (String c cmd); now repeat split |].
  repeat split; reflexivity.
Qed.

Lemma execute_task_raises_witness :
  ∃ w',
    execute_task quiet_env [anonymous_task] DEFAULT_STATE empty_world
    = (Raise (KeyError "id"), w')
    ∧ queue_file w' = None.
Proof.
  assert (Hrun : execute_task quiet_env [anonymous_task] DEFAULT_STATE empty_world
                 = (Raise (KeyError "id"),
                    (execute_task quiet_env [anonymous_task] DEFAULT_STATE
                       empty_world).2))
    by (vm_compute; reflexivity).
  destruct (execute_task_raises _ _ _ _ _ _ Hrun) as (_ & _ & Hq & _).
  eexists. split; [exact Hrun | exact Hq].
Defined.

(** A task is attempted once. On [blocked], [failed] or [done] the task
    changed is the first [todo] one; it takes the outcome as its status and
    keeps its id, title, kind, command and boost; the queue has one [todo]
    task fewer, and whatever the executor selects next lies behind it. *)
Theorem execute_task_progress (e : env) (queue : list task) (st : state) (w : world)
    (r : string) (queue' : list task) (st' : state) (w' : world) :
  execute_task e queue st w = (Ok (r, queue', st'), w') →
  r ≠ "no_task" → r ≠ "major" →
  ∃ i t t',
    list_find is_todo queue = Some (i, t)
    ∧ queue' = <[i := t']> queue
    ∧ task_status t' = Some r
    ∧ (task_id t', task_title t', task_kind t', task_command t', task_boost t')
      = (task_id t, task_title t, task_kind t, task_command t, task_boost t)
    ∧ (length (filter is_todo queue') + 1 = length (filter is_todo queue))%nat
    ∧ ∀ j t2, list_find is_todo queue' = Some (j, t2) → (i < j)%nat.
Proof.
  intros Hrun Hno Hmajor. apply execute_task_executes in Hrun.
  assert (Hstep : ∀ i t t',
            list_find is_todo queue = Some (i, t) → ¬ is_todo t' →
            (length (filter is_todo (<[i := t']> queue)) + 1
             = length (filter is_todo queue))%nat
            ∧ ∀ j t2, list_find is_todo (<[i := t']> queue) = Some (j, t2) →
                      (i < j)%nat).
  { intros i t t' Hfind Ht'.
    apply list_find_Some in Hfind as (Hi & Ht & Hfirst). split.
    - exact (todo_count_insert queue i t t' Hi Ht Ht').
    - intros j t2 Hj. apply list_find_Some in Hj as (Hj & Ht2 & _).
      destruct (lt_eq_lt_dec i j) as [[Hlt | ->] | Hgt]; [exact Hlt | |].
      + rewrite list_lookup_insert_eq in Hj by (now apply lookup_lt_Some in Hi).
        injection Hj as <-. contradiction.
      + rewrite list_lookup_insert_ne in Hj by lia.
        destruct (Hfirst j t2 Hj Hgt Ht2). }
  destruct Hrun as [| | i t Hfind _ _ _ | i t cmd Hfind _ _ _ _
                    | i t cmd boost id Hfind _ _ _ _ _ _]; try contradiction;
    exists i, t; eexists; (split; [exact Hfind |]); (split; [reflexivity |]);
    (split; [reflexivity |]); (split; [reflexivity |]);
    apply (Hstep i t _ Hfind), set_outcome_not_todo; discriminate.
Qed.

Lemma execute_task_progress_witness :
  ∃ queue' st' w',
    execute_task quiet_env [normal_task "t1" ∅; normal_task "t2" ∅] DEFAULT_STATE
      empty_world = (Ok ("done", queue', st'), w')
    ∧ (length (filter is_todo queue') + 1 = 2)%nat.
Proof.
  assert (Hrun : execute_task quiet_env [normal_task "t1" ∅; normal_task "t2" ∅]
                   DEFAULT_STATE empty_world
                 = (Ok ("done",
                        (<[0%nat := set_outcome "done" None (Some (stamp quiet_env))
                                      (normal_task "t1" ∅)]>
                           [normal_task "t1" ∅; normal_task "t2" ∅]),
                        match (execute_task quiet_env
                                 [normal_task "t1" ∅; normal_task "t2" ∅]
                                 DEFAULT_STATE empty_world).1 with
                        | Ok (_, _, st') => st'
                        | Raise _ => DEFAULT_STATE
                        end),
                    (execute_task quiet_env [normal_task "t1" ∅; normal_task "t2" ∅]
                       DEFAULT_STATE empty_world).2))
    by (vm_compute; reflexivity).
  destruct (execute_task_progress _ _ _ _ _ _ _ _ Hrun
              ltac:(discriminate) ltac:(discriminate))
    as (i & t & t' & _ & Hq & _ & _ & Hcount & _).
  do 3 eexists. split; [exact Hrun |].
  rewrite Hq in Hcount |- *. exact Hcount.
Defined.

Lemma length_string_of_list_ascii (l : list ascii) :
  String.length (string_of_list_ascii l) = length l.
Proof. induction l as [| c l IH]; cbn; [reflexivity | now rewrite IH]. Qed.

Lemma string_of_list_ascii_app (l1 l2 : list ascii) :
  string_of_list_ascii (l1 ++ l2)
  = string_of_list_ascii l1 +:+ string_of_list_ascii l2.
Proof. induction l1 as [| c l1 IH]; cbn; [reflexivity | now rewrite IH]. Qed.

(** [s[-n:]] is the suffix of [s] of length [min n (len s)]. *)
Lemma last_chars_suffix (n : nat) (s : string) :
  (String.length (last_chars n s) <= n)%nat
  ∧ (∃ pre, s = pre +:+ last_chars n s)
  ∧ ((String.length s <= n)%nat → last_chars n s = s).
Proof.
  unfold last_chars.
  pose proof (string_of_list_ascii_of_string s) as Hs.
  set (l := list_ascii_of_string s) in *. clearbody l. subst s.
  rewrite !length_string_of_list_ascii.
  repeat split.
  - rewrite length_drop. lia.
  - exists (string_of_list_ascii (take (List.length l - n) l)).
    now rewrite <- string_of_list_ascii_app, take_drop.
  - intros Hlen. replace (List.length l - n)%nat with 0%nat by lia. reflexivity.
Qed.

(** A failed task keeps a bounded diagnostic: its [result] is the tail of
    the command's error output, at most 800 characters long, and the whole
    output when that is no longer than 800. *)
Theorem failed_result_bounded (e : env) (queue : list task) (st : state) (w : world)
    (queue' : list task) (st' : state) (w' : world) :
  execute_task e queue st w = (Ok ("failed", queue', st'), w') →
  ∃ i t t' cmd res,
    list_find is_todo queue = Some (i, t)
    ∧ task_command t = Some cmd
    ∧ (shell e cmd).1 ≠ 0
    ∧ queue' !! i = Some t'
    ∧ task_status t' = Some "failed"
    ∧ task_result t' = Some res
    ∧ (String.length res <= 800)%nat
    ∧ (∃ pre, (shell e cmd).2 = pre +:+ res)
    ∧ ((String.length (shell e cmd).2 <= 800)%nat → res = (shell e cmd).2).
Proof.
  intros Hrun. apply execute_task_executes in Hrun.
  inversion Hrun as [| | | i t cmd Hfind Hkind Hcmd Hne Hrc |]; subst.
  exists i, t. do 2 eexists. exists (last_chars 800 (shell e cmd).2).
  split; [exact Hfind |]. split; [exact Hcmd |]. split; [exact Hrc |].
  split.
  { apply list_lookup_insert_eq.
    apply list_find_Some in Hfind as (Hi & _). now apply lookup_lt_Some in Hi. }
  split; [reflexivity |]. split; [reflexivity |].
  apply last_chars_suffix.
Qed.

Lemma failed_result_bounded_witness :
  ∃ queue' t' res,
    (execute_task failing_env [normal_task "t1" ∅] DEFAULT_STATE empty_world).1
    = Ok ("failed", queue', DEFAULT_STATE)
    ∧ queue' !! 0%nat = Some t'
    ∧ task_result t' = Some res
    ∧ (String.length res <= 800)%nat.
Proof.
  assert (Hrun : execute_task failing_env [normal_task "t1" ∅] DEFAULT_STATE empty_world
                 = (Ok ("failed",
                        <[0%nat := set_outcome "failed"
                                     (Some (last_chars 800
                                              (shell failing_env "true").2))
                                     None (normal_task "t1" ∅)]>
                          [normal_task "t1" ∅],
                        DEFAULT_STATE),
                    (execute_task failing_env [normal_task "t1" ∅] DEFAULT_STATE
                       empty_world).2))
    by (vm_compute; reflexivity).
  destruct (failed_result_bounded _ _ _ _ _ _ _ Hrun)
    as (i & t & t' & cmd & res & Hfind & _ & _ & Hq & _ & Hres & Hlen & _).
  assert (Hi : i = 0%nat).
  { apply list_find_Some in Hfind as (Hi & _).
    apply lookup_lt_Some in Hi. cbn in Hi. lia. }
  subst i. rewrite Hrun. cbn [fst].
  do 3 eexists. split; [reflexivity |]. split; [exact Hq |].
  split; [exact Hres | exact Hlen].
Defined.

(** ** Cycle controller: failures, codes and documents *)

Lemma build_scores_fileview (now : Z) (snap : snapshot) (st : state)
    (scores : gmap string row) :
  build_scores now snap st = Ok scores → is_Some (scores !! "fileview").
Proof.
  rewrite build_scores_eq.
  destruct (unboosted_rows now snap) as [rows |]; [| discriminate].
  destruct (rows !! "fileview"); [| discriminate].
  intros [= <-]. rewrite lookup_insert_eq. eauto.
Qed.

Lemma build_scores_boost_only (now : Z) (snap : snapshot) (st st' : state) :
  fileview_boost st = fileview_boost st' →
  build_scores now snap st = build_scores now snap st'.
Proof. intros Hb. now rewrite !build_scores_eq, Hb. Qed.

Lemma build_scores_raise_kind (now : Z) (snap : snapshot) (st : state) (ex : exn) :
  build_scores now snap st = Raise ex → ex = ValueError ∨ ex = TypeError.
Proof.
  rewrite build_scores_eq.
  destruct (unboosted_rows now snap) as [rows | ex'] eqn:Hrows.
  - destruct (unboosted_rows_lookup now snap rows "fileview"
                {| base_product := 22; base_ai_fit := 18; base_reliability := 10 |}
                Hrows ltac:(left)) as (r & _ & ->).
    discriminate.
  - intros [= <-].
    apply insert_loop_raises in Hrows as (key & b & _ & Hrow).
    unfold entity_row in Hrow.
    destruct (ecosystem_score _ _) as [eco | ex1] eqn:Heco; cbn in Hrow.
    + destruct (momentum_score _ _) as [mom | ex2] eqn:Hmom; cbn in Hrow;
        [discriminate |].
      injection Hrow as <-. now apply momentum_score_raises in Hmom.
    + injection Hrow as <-. apply ecosystem_score_raises in Heco as [-> _].
      now left.
Qed.

(** Where an invocation that raises leaves the documents. *)
Lemma execute_task_raise_inv (e : env) (queue : list task) (st : state) (w : world)
    (ex : exn) (w' : world) :
  execute_task e queue st w = (Raise ex, w') →
  ∃ k, ex = KeyError k
       ∧ (w' = w ∨ ∃ cmd, w' = set_shell_log (shell_log w ++ [cmd]) w).
Proof.
  unfold execute_task.
  destruct (list_find is_todo queue) as [[i t] |]; [| discriminate].
  destruct (task_nonempty t); cbn [negb]; [| discriminate].
  destruct (String.eqb _ "major").
  { unfold write_escalation. run_M.
    destruct (task_id t); cbn; [| intros [= <- <-]; eauto].
    destruct (task_title t); cbn; [| intros [= <- <-]; eauto].
    destruct (escalation_file w); discriminate. }
  destruct (task_command t) as [[| c cmd] |]; try discriminate.
  run_M. destruct (_ =? 0); cbn [negb]; [| discriminate].
  cbn [task_boost set_outcome task_id].
  destruct (add_boosts _ _) as [boost |] eqn:Hboost; cbn.
  2: { intros [= <- <-]. apply add_boosts_raises in Hboost as (k & -> & _). eauto. }
  destruct (task_id t); cbn; [discriminate |].
  intros [= <- <-]. eauto.
Qed.

(** Every way a cycle can end. *)
Lemma run_cycle_cases (e : env) (no_commit no_push : bool) (w w' : world)
    (r : result Z) :
  run_cycle e no_commit no_push w = (r, w') →
  (branch e ≠ "develop" ∧ r = Raise (SystemExit 2) ∧ w' = w)
  ∨ (branch e = "develop"
     ∧ ∃ snap,
         updated_at snap = stamp e
         ∧ ((∃ ex, execute_task e (default [] (queue_file w)) (loaded_state w)
                     (set_snapshot_file (Some snap) w) = (Raise ex, w')
                   ∧ r = Raise ex)
            ∨ ∃ rt queue' st1 w2,
                executes e (default [] (queue_file w)) (loaded_state w)
                  (set_snapshot_file (Some snap) w) rt queue' st1 w2
                ∧ ((∃ ex, build_scores (now e) snap st1 = Raise ex
                          ∧ r = Raise ex ∧ w' = w2)
                   ∨ ∃ scores fv,
                       build_scores (now e) snap st1 = Ok scores
                       ∧ scores !! "fileview" = Some fv
                       ∧ w' = cycle_end e snap scores fv rt (loaded_state w) st1 w2
                       ∧ (r = Ok (decision rt
                                    (cycle_counter rt
                                       (cycle_delta (loaded_state w) fv) st1))
                          ∨ (no_commit = false
                             ∧ ∃ ex, git e false no_push = Raise ex
                                     ∧ r = Raise ex))))).
Proof.
  unfold run_cycle, branch_guard, maybe_commit_push, ensure_dirs.
  destruct (String.eqb_spec (branch e) "develop") as [Hb | Hb]; run_M.
  2: { intros [= <- <-]. left. auto. }
  intros Hrun. right. split; [exact Hb |].
  destruct (fetch_market_snapshot_returns e w) as (snap & Hfetch & Hstamp).
  rewrite Hfetch in Hrun. exists snap. split; [exact Hstamp |].
  fold (loaded_state w) in Hrun.
  destruct (execute_task e _ _ _) as [[[[rt queue'] st1] | ex] w2] eqn:Hexec.
  2: { injection Hrun as <- <-. left. eauto. }
  right. apply execute_task_executes in Hexec.
  exists rt, queue', st1, w2. split; [exact Hexec |].
  destruct (build_scores (now e) snap st1) as [scores | ex] eqn:Hscores.
  2: { injection Hrun as <- <-. left. eauto. }
  right. destruct (build_scores_fileview _ _ _ _ Hscores) as [fv Hfv].
  rewrite Hfv in Hrun. cbn [getitem] in Hrun.
  exists scores, fv. split; [reflexivity |]. split; [exact Hfv |].
  unfold cycle_end, decision, cycle_counter, cycle_delta.
  destruct no_commit.
  - destruct (String.eqb rt "major"); [| destruct (2 <=? _)];
      injection Hrun as <- <-; split; auto.
  - destruct (git e false no_push) as [[] | ex] eqn:Hgit.
    + destruct (String.eqb rt "major"); [| destruct (2 <=? _)];
        injection Hrun as <- <-; split; auto.
    + injection Hrun as <- <-. split; [reflexivity |]. right. eauto.
Qed.

(** A cycle on the wrong branch stops with [SystemExit(2)] before touching
    anything. A cycle on [develop] run with [--no-commit] can only fail
    with a [KeyError] of the executor or a [ValueError] or [TypeError] of
    the score engine; it has then refreshed the snapshot, and has written
    neither the state nor the score report, so whatever the executor did in
    memory (a boost, a completed id) is not persisted. *)
Theorem run_cycle_failure (e : env) (no_push : bool) (w w' : world) (ex : exn) :
  run_cycle e true no_push w = (Raise ex, w') →
  (branch e ≠ "develop" ∧ ex = SystemExit 2 ∧ w' = w)
  ∨ (branch e = "develop"
     ∧ ((∃ k, ex = KeyError k) ∨ ex = ValueError ∨ ex = TypeError)
     ∧ state_file w' = state_file w
     ∧ score_file w' = score_file w
     ∧ ∃ snap, snapshot_file w' = Some snap ∧ updated_at snap = stamp e).
Proof.
  intros Hrun. apply run_cycle_cases in Hrun
    as [(Hb & [= <-] & ->) | (Hb & snap & Hstamp & Hcase)]; [left; auto |].
  right. split; [exact Hb |].
  destruct Hcase as [(ex' & Hexec & [= <-])
                    | (rt & queue' & st1 & w2 & Hx & Hcase)].
  - apply execute_task_raise_inv in Hexec as (k & -> & [-> | [cmd ->]]);
      (split; [left; eauto |]);
      (split; [reflexivity |]); (split; [reflexivity |]);
      exists snap; (split; [reflexivity | exact Hstamp]).
  - apply executes_state in Hx as (_ & _ & Hst & Hsc & Hsn).
    destruct Hcase as [(ex' & Hscores & Hr & ->)
                      | (scores & fv & _ & _ & _ & [Hr | (Hnc & _)])];
      try discriminate.
    injection Hr as <-.
    apply build_scores_raise_kind in Hscores.
    split; [tauto |]. split; [exact Hst |]. split; [exact Hsc |].
    exists snap. split; [exact Hsn | exact Hstamp].
Qed.
